(** * Scan&Snack pre-launch page: countdown, waitlist submission, reveal

    A shallow embedding of [src/app/page.tsx] (the [PreLaunchClient]
    component and its helpers) together with the properties its
    behaviour contract states.

    Conventions.
    - Instants and durations are integer milliseconds ([Z]), as returned
      by [Date.prototype.getTime].
    - The arithmetic of [calculateTimeLeft] ([/], [%], [Math.floor]) is
      carried out on exact rationals ([Q]).  The values the page handles
      are millisecond differences far below 2^53, where the IEEE-754
      quotient of two integers never rounds across an integer and the
      floating-point remainder is exact, so the floors computed by the
      engine are the floors computed here.
    - React state is a record; a setter is an action applied to it. *)

From Stdlib Require Import ZArith QArith Qround Lia List Bool String.
From Stdlib Require Import Ascii DecimalString DecimalPos.
Import ListNotations.

Set Warnings "-register-all".

Local Open Scope Z_scope.

(* ===================================================================== *)
(** ** JavaScript numbers, as far as the countdown uses them *)
(* ===================================================================== *)

Module JsNum.

(** Integer part, rounding toward zero. *)
Definition trunc (x : Q) : Z :=
  if Qle_bool 0 x then Qfloor x else Qceiling x.

(** [a / b] on numbers. *)
Definition div (a b : Q) : Q := (a / b)%Q.

(** [a % b]: the remainder has the sign of the dividend,
    [a - b * trunc (a / b)]. *)
Definition rem (a b : Q) : Q := (a - b * inject_Z (trunc (a / b)))%Q.

(** [Math.floor]. *)
Definition floor (x : Q) : Z := Qfloor x.

(** An integer-valued number. *)
Definition of_Z (z : Z) : Q := inject_Z z.

End JsNum.

(* ===================================================================== *)
(** ** CountdownTimer *)
(* ===================================================================== *)

Module Countdown.

(** The [timeLeft] state of the component. *)
Record TimeLeft : Type := mkTimeLeft
  { days : Z; hours : Z; minutes : Z; seconds : Z }.

(** [useState({ days: 0, hours: 0, minutes: 0, seconds: 0 })]. *)
Definition initial : TimeLeft :=
  {| days := 0; hours := 0; minutes := 0; seconds := 0 |}.

(** [new Date(Date.UTC(2025, 5, 27, 6, 0, 0)).getTime()]:
    27 June 2025, 06:00:00 UTC. *)
Definition launchDate : Z := 1751004000000.

(** One run of [calculateTimeLeft]: [launch] is
    [launchDate.getTime()], [now] is [new Date().getTime()], and the
    result is the [timeLeft] state after the call.  The state is
    written only under [difference > 0]; otherwise it is left as it
    was. *)
Definition calculateTimeLeft (launch now : Z) (timeLeft : TimeLeft) : TimeLeft :=
  let difference := launch - now in
  let d := JsNum.of_Z difference in
  if 0 <? difference then
    {| days :=
         JsNum.floor (JsNum.div d (JsNum.of_Z (1000 * 60 * 60 * 24)));
       hours :=
         JsNum.floor
           (JsNum.rem (JsNum.div d (JsNum.of_Z (1000 * 60 * 60)))
                      (JsNum.of_Z 24));
       minutes :=
         JsNum.floor
           (JsNum.rem (JsNum.div (JsNum.div d (JsNum.of_Z 1000)) (JsNum.of_Z 60))
                      (JsNum.of_Z 60));
       seconds :=
         JsNum.floor
           (JsNum.rem (JsNum.div d (JsNum.of_Z 1000)) (JsNum.of_Z 60)) |}
  else timeLeft.

(** The effect body: [calculateTimeLeft()] once, then once per elapsed
    interval.  [nows] lists the clock readings of the successive
    calls; the result lists the state shown after each of them. *)
Fixpoint shown (launch : Z) (nows : list Z) (timeLeft : TimeLeft) : list TimeLeft :=
  match nows with
  | [] => []
  | now :: rest =>
      let next := calculateTimeLeft launch now timeLeft in
      next :: shown launch rest next
  end.

(** The state after all the calls. *)
Definition after (launch : Z) (nows : list Z) (timeLeft : TimeLeft) : TimeLeft :=
  fold_left (fun tl now => calculateTimeLeft launch now tl) nows timeLeft.

(** No field is negative. *)
Definition non_negative (tl : TimeLeft) : Prop :=
  0 <= days tl /\ 0 <= hours tl /\ 0 <= minutes tl /\ 0 <= seconds tl.

(** Milliseconds rebuilt from the four fields. *)
Definition reconstruct (tl : TimeLeft) : Z :=
  days tl * 86400000 + hours tl * 3600000 + minutes tl * 60000 + seconds tl * 1000.

(** The four fields written by a call made before the target instant. *)
Definition breakdown (delta : Z) : TimeLeft :=
  {| days := delta / 86400000;
     hours := (delta / 3600000) mod 24;
     minutes := (delta / 60000) mod 60;
     seconds := (delta / 1000) mod 60 |}.

End Countdown.

(* ===================================================================== *)
(** ** JavaScript values, as far as the page handles them *)
(* ===================================================================== *)

Module Js.

Local Open Scope string_scope.

(** Values a JSON response body can hold, and [undefined].  Numbers
    are integers; those of magnitude below 10^21 print in plain
    decimal, which is the range [to_string] covers. *)
Inductive value : Type :=
| Undefined
| Null
| Bool (b : bool)
| Num (n : Z)
| Str (s : string)
| Arr (items : list value)
| Obj (fields : list (string * value)).

(** Truthiness, as [||] and [&&] test it. *)
Definition truthy (v : value) : bool :=
  match v with
  | Undefined | Null => false
  | Bool b => b
  | Num n => negb (n =? 0)%Z
  | Str s => negb (s =? "")
  | Arr _ | Obj _ => true
  end.

(** [a || b]. *)
Definition or (a b : value) : value := if truthy a then a else b.

(** The string conversion [new Error(v)] applies to its argument.
    An array joins its elements with commas, [null] and [undefined]
    elements printing as nothing. *)
Fixpoint to_string (v : value) : string :=
  match v with
  | Undefined => "undefined"
  | Null => "null"
  | Bool true => "true"
  | Bool false => "false"
  | Num n => NilZero.string_of_int (Z.to_int n)
  | Str s => s
  | Arr items =>
      (fix join (l : list value) : string :=
         match l with
         | [] => ""
         | x :: rest =>
             let here :=
               match x with
               | Undefined | Null => ""
               | _ => to_string x
               end in
             match rest with
             | [] => here
             | _ :: _ => here ++ "," ++ join rest
             end
         end) items
  | Obj _ => "[object Object]"
  end.

(** Own property of a parsed JSON object; [undefined] when absent. *)
Fixpoint field (key : string) (fields : list (string * value)) : value :=
  match fields with
  | [] => Undefined
  | (k, v) :: rest => if k =? key then v else field key rest
  end.

(** [v.message].  [None] stands for the [TypeError] the engine raises
    when [v] is [null] or [undefined]; a string, number, boolean or
    array has no such property. *)
Definition message_of (v : value) : option value :=
  match v with
  | Undefined | Null => None
  | Obj fields => Some (field "message" fields)
  | Bool _ | Num _ | Str _ | Arr _ => Some Undefined
  end.

(** [v.data], read off a value that is neither [null] nor [undefined]:
    the member of an object, [undefined] on anything else. *)
Definition data_of (v : value) : value :=
  match v with
  | Obj fields => field "data" fields
  | _ => Undefined
  end.

(** What [JSON.stringify] keeps of an object: members whose value is
    [undefined] are dropped. *)
Definition json_members (v : value) : list (string * value) :=
  match v with
  | Obj fields =>
      filter (fun kv => match snd kv with Undefined => false | _ => true end) fields
  | _ => []
  end.

End Js.

(* ===================================================================== *)
(** ** The axios client *)
(* ===================================================================== *)

Module Axios.

Local Open Scope string_scope.

Record Response : Type := mkResponse
  { data : Js.value; status : Z }.

(** An instance made by [axios.create]. *)
Record Instance : Type := mkInstance
  { baseURL : option string; headers : list (string * string) }.

(** A request as the page's code determines it; [req_headers] are the
    headers the instance was created with (axios sends its own
    defaults, such as [Accept], beside them). *)
Record Request : Type := mkRequest
  { req_method : string;
    req_baseURL : option string;
    req_url : string;
    req_headers : list (string * string);
    req_data : Js.value }.

(** The request [instance.post(url, data)] issues. *)
Definition post (i : Instance) (url : string) (body : Js.value) : Request :=
  {| req_method := "POST";
     req_baseURL := baseURL i;
     req_url := url;
     req_headers := headers i;
     req_data := body |}.

End Axios.

(* ===================================================================== *)
(** ** Asynchronous code: actions, one suspension per request *)
(* ===================================================================== *)

Module Async.

Local Open Scope string_scope.

(** Values that can be thrown. *)
Inductive thrown : Type :=
| Error (message : string)                    (* new Error(message) *)
| TypeError (message : string)                (* raised by the engine *)
| AxiosError (message : string) (response : option Axios.Response)
| Thrown (v : Js.value).                      (* anything else *)

(** [axios.isAxiosError(e)]: an error raised by axios, or any object
    whose [isAxiosError] member is [true]. *)
Definition isAxiosError (e : thrown) : bool :=
  match e with
  | AxiosError _ _ => true
  | Thrown (Js.Obj fields) =>
      match Js.field "isAxiosError" fields with
      | Js.Bool true => true
      | _ => false
      end
  | _ => false
  end.

(** [e.response] when it is there (truthy), as far as the page reads
    it: the page reads [data] only; [status] is the numeric [status]
    member when the object has one and 0 otherwise. *)
Definition response_of (e : thrown) : option Axios.Response :=
  match e with
  | AxiosError _ r => r
  | Thrown (Js.Obj fields) =>
      let r := Js.field "response" fields in
      if Js.truthy r then
        Some {| Axios.data := Js.data_of r;
                Axios.status :=
                  match r with
                  | Js.Obj members =>
                      match Js.field "status" members with
                      | Js.Num n => n
                      | _ => 0
                      end
                  | _ => 0
                  end |}
      else None
  | _ => None
  end.

(** [e instanceof Error]. *)
Definition instanceof_Error (e : thrown) : bool :=
  match e with
  | Error _ | TypeError _ | AxiosError _ _ => true
  | Thrown _ => false
  end.

(** [e.message] of an [Error] instance. *)
Definition message (e : thrown) : string :=
  match e with
  | Error m | TypeError m | AxiosError m _ => m
  | Thrown _ => ""
  end.

(** The engine's message for reading [message] off [null] or
    [undefined] (V8 wording). *)
Definition cannot_read_message (v : Js.value) : string :=
  "Cannot read properties of " ++ Js.to_string v ++ " (reading 'message')".

(** How a request settles: axios fulfils with the response on a 2xx
    status and rejects otherwise. *)
Inductive settled : Type :=
| Fulfilled (r : Axios.Response)
| Rejected (e : thrown).

(** What the page does besides requests: state setters, toasts and
    [e.preventDefault()]. *)
Inductive action : Type :=
| PreventDefault
| SetIsSubmitting (b : bool)
| SetName (s : string)
| SetEmail (s : string)
| SetRestaurantName (s : string)
| SetSubscribed (b : bool)
| ToastSuccess (title description : string)
| ToastError (title description : string).

(** An async function body: it returns, throws, performs an action and
    goes on, or awaits a request and goes on with how it settled. *)
Inductive prog (A : Type) : Type :=
| Ret (a : A)
| Throw (e : thrown)
| Do (a : action) (k : prog A)
| Post (r : Axios.Request) (k : settled -> prog A).

Arguments Ret {A} a.
Arguments Throw {A} e.
Arguments Do {A} a k.
Arguments Post {A} r k.

Fixpoint bind {A B : Type} (p : prog A) (f : A -> prog B) : prog B :=
  match p with
  | Ret a => f a
  | Throw e => Throw e
  | Do a k => Do a (bind k f)
  | Post r k => Post r (fun s => bind (k s) f)
  end.

(** [try { p } catch (e) { h e }]. *)
Fixpoint try_catch {A : Type} (p : prog A) (h : thrown -> prog A) : prog A :=
  match p with
  | Ret a => Ret a
  | Throw e => h e
  | Do a k => Do a (try_catch k h)
  | Post r k => Post r (fun s => try_catch (k s) h)
  end.

(** [try { p } finally { f }]: [f] runs on either exit, and the exit of
    [p] stands unless [f] throws. *)
Fixpoint try_finally {A : Type} (p : prog A) (f : prog unit) : prog A :=
  match p with
  | Ret a => bind f (fun _ => Ret a)
  | Throw e => bind f (fun _ => Throw e)
  | Do a k => Do a (try_finally k f)
  | Post r k => Post r (fun s => try_finally (k s) f)
  end.

(** A single action. *)
Definition perform (a : action) : prog unit := Do a (Ret tt).

(** [await instance.post(url, body)]. *)
Definition await_post (i : Axios.Instance) (url : string) (body : Js.value)
  : prog Axios.Response :=
  Post (Axios.post i url body)
       (fun s => match s with
                 | Fulfilled r => Ret r
                 | Rejected e => Throw e
                 end).

(** How an invocation ends. *)
Inductive completion (A : Type) : Type :=
| Returned (a : A)
| Threw (e : thrown).

Arguments Returned {A} a.
Arguments Threw {A} e.

(** What an invocation does, in order. *)
Inductive event : Type :=
| Performed (a : action)
| Requested (r : Axios.Request).

(** A whole invocation, the network settling each request as [net]
    says: the events in order, and how it ends. *)
Fixpoint exec {A : Type} (net : Axios.Request -> settled) (p : prog A)
  : list event * completion A :=
  match p with
  | Ret a => ([], Returned a)
  | Throw e => ([], Threw e)
  | Do a k => let '(es, c) := exec net k in (Performed a :: es, c)
  | Post r k => let '(es, c) := exec net (k (net r)) in (Requested r :: es, c)
  end.

Definition requests_in (es : list event) : list Axios.Request :=
  flat_map (fun e => match e with Requested r => [r] | Performed _ => [] end) es.

End Async.

Declare Scope prog_scope.
Delimit Scope prog_scope with prog.
Notation "x <- p ;; q" := (Async.bind p (fun x => q))
  (at level 61, p at next level, right associativity) : prog_scope.
Notation "p ;; q" := (Async.bind p (fun _ => q))
  (at level 61, right associativity) : prog_scope.

(* ===================================================================== *)
(** ** The waitlist: API client, submit handler, form *)
(* ===================================================================== *)

Module Waitlist.

Import Async.
Local Open Scope string_scope.
Local Open Scope prog_scope.

(** The argument of [addToWaitlist]:
    [{ email: string; name: string; restaurantName?: string }]. *)
Record WaitlistData : Type := mkData
  { data_email : string;
    data_name : string;
    data_restaurantName : option string }.

(** The component state of [PreLaunchClient] the form uses. *)
Record PageState : Type := mkState
  { isSubmitting : bool;
    name : string;
    email : string;
    restaurantName : string;
    subscribed : bool }.

(** The [useState] initial values. *)
Definition initialState : PageState :=
  {| isSubmitting := false; name := ""; email := "";
     restaurantName := ""; subscribed := false |}.

(** The state after an action: a setter writes its variable, the rest
    leave the state alone. *)
Definition apply (a : action) (st : PageState) : PageState :=
  match a with
  | SetIsSubmitting b =>
      {| isSubmitting := b; name := name st; email := email st;
         restaurantName := restaurantName st; subscribed := subscribed st |}
  | SetName s =>
      {| isSubmitting := isSubmitting st; name := s; email := email st;
         restaurantName := restaurantName st; subscribed := subscribed st |}
  | SetEmail s =>
      {| isSubmitting := isSubmitting st; name := name st; email := s;
         restaurantName := restaurantName st; subscribed := subscribed st |}
  | SetRestaurantName s =>
      {| isSubmitting := isSubmitting st; name := name st; email := email st;
         restaurantName := s; subscribed := subscribed st |}
  | SetSubscribed b =>
      {| isSubmitting := isSubmitting st; name := name st; email := email st;
         restaurantName := restaurantName st; subscribed := b |}
  | PreventDefault | ToastSuccess _ _ | ToastError _ _ => st
  end.

(** A program run on the page until it returns, throws or awaits:
    the state reached, the actions performed, and what is left of the
    program ([Ret], [Throw], or a [Post] being awaited). *)
Record Run (A : Type) : Type := mkRun
  { state : PageState; performed : list action; rest : prog A }.

Arguments mkRun {A} state performed rest.
Arguments state {A} r.
Arguments performed {A} r.
Arguments rest {A} r.

Fixpoint run {A : Type} (p : prog A) (st : PageState) : Run A :=
  match p with
  | Do a k =>
      let r := run k (apply a st) in
      mkRun (state r) (a :: performed r) (rest r)
  | Ret _ | Throw _ | Post _ _ => mkRun st [] p
  end.

(** The request a program is awaiting. *)
Definition awaiting {A : Type} (p : prog A) : option Axios.Request :=
  match p with Post r _ => Some r | _ => None end.

(** A program awaiting a request, once the request has settled. *)
Definition settle {A : Type} (p : prog A) (s : settled) : prog A :=
  match p with Post _ k => k s | _ => p end.

Section Client.

(** [process.env.NEXT_PUBLIC_BACKEND_API_URL]. *)
Variable API_URL : option string.

(** [axios.create({ baseURL: API_URL, headers: {...} })]. *)
Definition api : Axios.Instance :=
  {| Axios.baseURL := API_URL;
     Axios.headers := [("Content-Type", "application/json")] |}.

(** The body object [addToWaitlist] posts. *)
Definition request_body (data : WaitlistData) : Js.value :=
  Js.Obj [ ("email", Js.Str (data_email data));
           ("name", Js.Str (data_name data));
           ("restaurantName",
             match data_restaurantName data with
             | Some r => Js.Str r
             | None => Js.Undefined
             end) ].

(** The [catch] block of [addToWaitlist]. *)
Definition addToWaitlist_catch (error : thrown) : prog Js.value :=
  match (if isAxiosError error then response_of error else None) with
  | Some response =>
      match Js.message_of (Axios.data response) with
      | Some m =>
          let errorMessage := Js.or m (Js.Str "Adding to waitlist failed") in
          Throw (Error (Js.to_string errorMessage))
      | None =>
          Throw (TypeError (cannot_read_message (Axios.data response)))
      end
  | None =>
      Throw (Error "Adding to waitlist failed. Please check your network or try again later.")
  end.

Definition addToWaitlist (data : WaitlistData) : prog Js.value :=
  try_catch
    (response <- await_post api "/auth/wait-list" (request_body data) ;;
     Ret (Axios.data response))
    addToWaitlist_catch.

(** [handleWaitlistSubmit], with the [email], [name] and
    [restaurantName] of the render that created it. *)
Definition handleWaitlistSubmit (email name restaurantName : string) : prog unit :=
  perform PreventDefault ;;
  perform (SetIsSubmitting true) ;;
  try_finally
    (try_catch
       (_ <- addToWaitlist {| data_email := email;
                              data_name := name;
                              data_restaurantName := Some restaurantName |} ;;
        perform (ToastSuccess "You're on the list!"
                   "Thank you for joining our waitlist. We'll notify you when we launch.") ;;
        perform (SetEmail "") ;;
        perform (SetName "") ;;
        perform (SetRestaurantName "") ;;
        perform (SetSubscribed true))
       (fun error =>
          perform (ToastError "Failed to join waitlist"
                     (if instanceof_Error error then message error
                      else "Please try again later."))))
    (perform (SetIsSubmitting false)).

(** The handler as the form of state [st] holds it. *)
Definition onSubmit (st : PageState) : prog unit :=
  handleWaitlistSubmit (email st) (name st) (restaurantName st).

(** The request a submission from state [st] posts. *)
Definition waitlist_request (st : PageState) : Axios.Request :=
  {| Axios.req_method := "POST";
     Axios.req_baseURL := API_URL;
     Axios.req_url := "/auth/wait-list";
     Axios.req_headers := [("Content-Type", "application/json")];
     Axios.req_data :=
       Js.Obj [ ("email", Js.Str (email st));
                ("name", Js.Str (name st));
                ("restaurantName", Js.Str (restaurantName st)) ] |}.

(** An invocation of the handler from state [st], run up to its
    [await]. *)
Definition started (st : PageState) : Run unit :=
  run (onSubmit st) st.

(** The same invocation from the moment its request settles as [s],
    the page being in state [st'] by then, run to its end. *)
Definition finished (st : PageState) (s : settled) (st' : PageState) : Run unit :=
  run (settle (rest (started st)) s) st'.

(** How [addToWaitlist] ends when its request is rejected with [e]. *)
Definition rejection (data : WaitlistData) (e : thrown) : completion Js.value :=
  snd (exec (fun _ => Rejected e) (addToWaitlist data)).

End Client.

Definition is_toast (a : action) : bool :=
  match a with ToastSuccess _ _ | ToastError _ _ => true | _ => false end.

(** *** What the form card renders *)

Record FormView : Type := mkForm
  { name_value : string;
    email_value : string;
    restaurantName_value : string;
    submit_disabled : bool;
    submit_label : string }.

Inductive CardView : Type :=
| WaitlistForm (f : FormView)
| Confirmation.

(** [{!subscribed ? <form ...> : <div ...>}]. *)
Definition render (st : PageState) : CardView :=
  if negb (subscribed st) then
    WaitlistForm
      {| name_value := name st;
         email_value := email st;
         restaurantName_value := restaurantName st;
         submit_disabled := isSubmitting st;
         submit_label := if isSubmitting st then "Joining..." else "Join Waitlist" |}
  else Confirmation.

(** *** The page as the user and the network drive it *)

Section Browser.

Variable API_URL : option string.

(** The browser's check of an [<input type="email">] value. *)
Variable valid_email : string -> bool.

(** Whether the browser fires the form's [submit] event when the
    user asks for it: the form is there, its submit button is not
    disabled, the two [required] inputs are filled and the e-mail
    has the shape the browser wants. *)
Definition submittable (v : CardView) : bool :=
  match v with
  | WaitlistForm f =>
      negb (submit_disabled f)
      && negb (name_value f =? "")
      && negb (email_value f =? "")
      && valid_email (email_value f)
  | Confirmation => false
  end.

(** The page: component state, the handler invocations awaiting
    their request, the requests sent so far, the toasts shown so
    far, and what handler invocations threw. *)
Record Page : Type := mkPage
  { ui : PageState;
    inflight : list (prog unit);
    sent : list Axios.Request;
    toasts : list action;
    uncaught : list thrown }.

Definition initialPage : Page :=
  {| ui := initialState; inflight := []; sent := []; toasts := []; uncaught := [] |}.

Inductive input : Type :=
| TypeName (s : string)
| TypeEmail (s : string)
| TypeRestaurantName (s : string)
| PressSubmit
| Settles (i : nat) (s : settled).

Fixpoint remove_nth {A : Type} (i : nat) (l : list A) : list A :=
  match l, i with
  | [], _ => []
  | _ :: t, O => t
  | h :: t, S j => h :: remove_nth j t
  end.

(** The page after a program has run on it as far as it goes. *)
Definition absorb (pg : Page) (others : list (prog unit)) (r : Run unit) : Page :=
  {| ui := state r;
     inflight :=
       others ++ match rest r with Post _ _ => [rest r] | _ => [] end;
     sent :=
       sent pg ++ match awaiting (rest r) with Some q => [q] | None => [] end;
     toasts := toasts pg ++ filter is_toast (performed r);
     uncaught :=
       uncaught pg ++ match rest r with Throw e => [e] | _ => [] end |}.

(** An [onChange] of one of the inputs, which exist while the form
    is rendered. *)
Definition typing (a : action) (pg : Page) : Page :=
  match render (ui pg) with
  | WaitlistForm _ =>
      {| ui := apply a (ui pg); inflight := inflight pg; sent := sent pg;
         toasts := toasts pg; uncaught := uncaught pg |}
  | Confirmation => pg
  end.

Definition step (pg : Page) (i : input) : Page :=
  match i with
  | TypeName s => typing (SetName s) pg
  | TypeEmail s => typing (SetEmail s) pg
  | TypeRestaurantName s => typing (SetRestaurantName s) pg
  | PressSubmit =>
      if submittable (render (ui pg)) then
        absorb pg (inflight pg) (run (onSubmit API_URL (ui pg)) (ui pg))
      else pg
  | Settles n s =>
      match nth_error (inflight pg) n with
      | Some p => absorb pg (remove_nth n (inflight pg)) (run (settle p s) (ui pg))
      | None => pg
      end
  end.

Definition steps (pg : Page) (inputs : list input) : Page := fold_left step inputs pg.

(** No invocation is awaiting and the flag is down. *)
Definition idle (pg : Page) : Prop :=
  isSubmitting (ui pg) = false /\ inflight pg = [].

(** Exactly one invocation of the handler is awaiting its request,
    and the flag is up. *)
Definition busy (pg : Page) : Prop :=
  isSubmitting (ui pg) = true
  /\ exists st0, inflight pg = [rest (started API_URL st0)].

End Browser.

End Waitlist.

(* ===================================================================== *)
(** ** AnimatedSection and FeatureCard *)
(* ===================================================================== *)

Module Reveal.

(** The options given to [useInView]. *)
Record InViewOptions : Type := mkOptions
  { triggerOnce : bool; threshold : Q }.

(** [{ triggerOnce: true, threshold: 0.1 }], in both components. *)
Definition options : InViewOptions :=
  {| triggerOnce := true; threshold := 1 # 10 |}.

(** The hook's state: the [inView] flag it returns, and whether it
    still observes the element. *)
Record InViewState : Type := mkInView
  { inView : bool; observing : bool }.

Definition unseen : InViewState := {| inView := false; observing := true |}.

(** Seen, and no longer observed. *)
Definition seen_once : InViewState := {| inView := true; observing := false |}.

(** Modelled from the spec: the [useInView] hook belongs to the
    react-intersection-observer package, whose code is not in this
    repository; the page only chooses its options.  Following the
    contract "reveal ... the first time it scrolls into view; never
    replays ... a one-shot 'has this been seen' flag per section":
    each report of the element's intersection ratio sets the flag to
    whether the ratio reaches the threshold, and under [triggerOnce]
    the hook stops observing once the flag is set, so the flag stays
    set. *)
Definition observe (o : InViewOptions) (s : InViewState) (ratio : Q) : InViewState :=
  if observing s then
    let seen := Qle_bool (threshold o) ratio in
    {| inView := seen; observing := negb (seen && triggerOnce o) |}
  else s.

(** The [initial] and [animate] targets of a [motion] element. *)
Record Target : Type := mkTarget { opacity : Z; y : Z }.

Definition Target_eqb (a b : Target) : bool :=
  (opacity a =? opacity b)%Z && (y a =? y b)%Z.

(** A component revealed on entrance: its hidden target (also its
    [initial]) and its visible target. *)
Record Entrance : Type := mkEntrance { hidden : Target; visible : Target }.

(** [initial={{ opacity: 0, y: 50 }}],
    [animate={inView ? { opacity: 1, y: 0 } : { opacity: 0, y: 50 }}]. *)
Definition AnimatedSection : Entrance :=
  {| hidden := {| opacity := 0; y := 50 |};
     visible := {| opacity := 1; y := 0 |} |}.

(** [initial={{ opacity: 0, y: 20 }}],
    [animate={inView ? { opacity: 1, y: 0 } : { opacity: 0, y: 20 }}]. *)
Definition FeatureCard : Entrance :=
  {| hidden := {| opacity := 0; y := 20 |};
     visible := {| opacity := 1; y := 0 |} |}.

(** The [animate] prop of a render. *)
Definition animate (c : Entrance) (s : InViewState) : Target :=
  if inView s then visible c else hidden c.

(** The [animate] props of the successive renders, one per reported
    intersection ratio. *)
Fixpoint renders (o : InViewOptions) (c : Entrance) (s : InViewState) (ratios : list Q)
  : list Target :=
  match ratios with
  | [] => []
  | ratio :: later =>
      let s' := observe o s ratio in
      animate c s' :: renders o c s' later
  end.

(** How often the target changes from [from] to [to] along the
    renders, the element starting at [current]: each such change
    plays the transition once. *)
Fixpoint plays (from to current : Target) (targets : list Target) : nat :=
  match targets with
  | [] => O
  | t :: later =>
      (if Target_eqb current from && Target_eqb t to then 1 else 0)%nat
      + plays from to t later
  end.

(** The entrance transitions a component plays over a scroll. *)
Definition entrances (o : InViewOptions) (c : Entrance) (ratios : list Q) : nat :=
  plays (hidden c) (visible c) (hidden c) (renders o c unseen ratios).

(** The transitions back to hidden. *)
Definition exits (o : InViewOptions) (c : Entrance) (ratios : list Q) : nat :=
  plays (visible c) (hidden c) (hidden c) (renders o c unseen ratios).

(** Whether some reported ratio reaches the threshold. *)
Definition crosses (o : InViewOptions) (ratios : list Q) : bool :=
  existsb (fun ratio => Qle_bool (threshold o) ratio) ratios.

End Reveal.

(* ===================================================================== *)
(** ** What the countdown puts on screen *)
(* ===================================================================== *)

Module Display.

Import Countdown.
Local Open Scope string_scope.

(** The first [n] characters of [padString] written over and over,
    [cur] being what is left of the copy in progress. *)
Fixpoint filler (n : nat) (cur padString : string) : string :=
  match n with
  | O => ""
  | S m =>
      match cur with
      | String ch more => String ch (filler m more padString)
      | EmptyString =>
          match padString with
          | String ch more => String ch (filler m more padString)
          | EmptyString => ""
          end
      end
  end.

(** [s.padStart(targetLength, padString)]: [s] as it is when it is long
    enough or there is nothing to pad with, else [s] behind as much of
    the repeated [padString] as brings it to [targetLength]. *)
Definition padStart (s : string) (targetLength : nat) (padString : string) : string :=
  if (targetLength <=? String.length s)%nat then s
  else if padString =? "" then s
  else filler (targetLength - String.length s) padString padString ++ s.

(** [Object.entries(timeLeft)], in the order the state object lists its
    keys. *)
Definition entries (tl : TimeLeft) : list (string * Z) :=
  [ ("days", days tl); ("hours", hours tl);
    ("minutes", minutes tl); ("seconds", seconds tl) ].

(** [value.toString().padStart(2, "0")]. *)
Definition cell_text (value : Z) : string :=
  padStart (Js.to_string (Js.Num value)) 2 "0".

(** The cells of the grid: the unit under each box and the text in it. *)
Definition cells (tl : TimeLeft) : list (string * string) :=
  map (fun uv => (fst uv, cell_text (snd uv))) (entries tl).

(** A text read as a decimal numeral, leading zeros allowed. *)
Definition read_decimal (s : string) : option Z :=
  option_map Z.of_uint (NilZero.uint_of_string s).

End Display.

(* ===================================================================== *)
(** ** The countdown's effect: its interval and its cleanup *)
(* ===================================================================== *)

Module Effect.

Import Countdown.

(** The component instance: its [timeLeft] state, the intervals that are
    live (the identifier [setInterval] returned, and the [launchDate]
    their callback closes over), the interval the cleanup of the last
    effect run will clear, the next identifier [setInterval] hands out,
    and whether the component is mounted. *)
Record Instance : Type := mkInstance
  { timeLeft : TimeLeft;
    intervals : list (nat * Z);
    cleanup : option nat;
    next_timer : nat;
    mounted : bool }.

Definition unmounted : Instance :=
  {| timeLeft := initial; intervals := []; cleanup := None;
     next_timer := O; mounted := false |}.

(** [clearInterval(timer)]. *)
Definition clearInterval (timer : nat) (l : list (nat * Z)) : list (nat * Z) :=
  filter (fun i => negb (Nat.eqb (fst i) timer)) l.

(** The effect body: [calculateTimeLeft()], then
    [const timer = setInterval(calculateTimeLeft, 1000)], and the
    cleanup [() => clearInterval(timer)] is returned. *)
Definition run_effect (launch now : Z) (c : Instance) : Instance :=
  {| timeLeft := calculateTimeLeft launch now (timeLeft c);
     intervals := (next_timer c, launch) :: intervals c;
     cleanup := Some (next_timer c);
     next_timer := S (next_timer c);
     mounted := mounted c |}.

(** The cleanup returned by the last run of the effect, if any. *)
Definition run_cleanup (c : Instance) : Instance :=
  match cleanup c with
  | Some timer =>
      {| timeLeft := timeLeft c;
         intervals := clearInterval timer (intervals c);
         cleanup := None;
         next_timer := next_timer c;
         mounted := mounted c |}
  | None => c
  end.

(** What happens to the component.  [Rerender] is a render by the
    parent: [PreLaunchClient] builds [launchDate] with [new Date(...)]
    in its body, so each of its renders hands down a new object and the
    dependency [[launchDate]] has changed; a render of the countdown
    alone keeps the object and runs no effect. *)
Inductive event : Type :=
| Mount (launch now : Z)
| Rerender (launch now : Z)
| Fire (timer : nat) (now : Z)
| Unmount.

Definition step (c : Instance) (e : event) : Instance :=
  match e with
  | Mount launch now =>
      if mounted c then c
      else run_effect launch now
             {| timeLeft := initial; intervals := intervals c;
                cleanup := cleanup c; next_timer := next_timer c;
                mounted := true |}
  | Rerender launch now =>
      if mounted c then run_effect launch now (run_cleanup c) else c
  | Fire timer now =>
      match find (fun i => Nat.eqb (fst i) timer) (intervals c) with
      | Some (_, launch) =>
          {| timeLeft := calculateTimeLeft launch now (timeLeft c);
             intervals := intervals c; cleanup := cleanup c;
             next_timer := next_timer c; mounted := mounted c |}
      | None => c
      end
  | Unmount =>
      if mounted c then
        let d := run_cleanup c in
        {| timeLeft := timeLeft d; intervals := intervals d;
           cleanup := cleanup d; next_timer := next_timer d;
           mounted := false |}
      else c
  end.

Definition steps (c : Instance) (events : list event) : Instance :=
  fold_left step events c.

End Effect.

(* ===================================================================== *)
(** ** Accounts of the page: what was sent, what was shown *)
(* ===================================================================== *)

Module Ledger.

Import Async Waitlist.

(** The books balance: no invocation threw, every request sent is
    either outstanding or has had its toast, and nothing is outstanding
    once subscribed. *)
Definition balanced (pg : Page) : Prop :=
  uncaught pg = []
  /\ List.length (sent pg)
     = (List.length (toasts pg) + List.length (inflight pg))%nat
  /\ (subscribed (ui pg) = true -> inflight pg = []).

End Ledger.

(* ===================================================================== *)
(** ** Arithmetic of the countdown *)
(* ===================================================================== *)

Section FloorFacts.

Local Open Scope Q_scope.

Lemma inject_Z_pos_nonzero (c : Z) : (0 < c)%Z -> ~ inject_Z c == 0.
Proof.
  intros Hc H. unfold Qeq in H. simpl in H. lia.
Qed.

(** The floor of a quotient of integers is the integer quotient. *)
Lemma floor_div_of_Z (a c : Z) :
  JsNum.floor (JsNum.div (JsNum.of_Z a) (JsNum.of_Z c)) = (a / c)%Z.
Proof.
  unfold JsNum.floor, JsNum.div, JsNum.of_Z. symmetry. apply Zdiv_Qdiv.
Qed.

Lemma div_of_Z_nonneg (a c : Z) :
  (0 <= a)%Z -> (0 < c)%Z -> 0 <= inject_Z a / inject_Z c.
Proof.
  intros Ha Hc. apply Qle_shift_div_l.
  - change 0 with (inject_Z 0). rewrite <- Zlt_Qlt. exact Hc.
  - rewrite Qmult_0_l. change 0 with (inject_Z 0). rewrite <- Zle_Qle. exact Ha.
Qed.

(** On a non-negative quotient of integers, truncation is the integer
    quotient. *)
Lemma trunc_div_of_Z (a c : Z) :
  (0 <= a)%Z -> (0 < c)%Z ->
  JsNum.trunc (inject_Z a / inject_Z c) = (a / c)%Z.
Proof.
  intros Ha Hc. unfold JsNum.trunc.
  assert (H : Qle_bool 0 (inject_Z a / inject_Z c) = true).
  { apply Qle_bool_iff. apply div_of_Z_nonneg; assumption. }
  rewrite H. symmetry. apply Zdiv_Qdiv.
Qed.

(** Truncation sees a number only up to its value. *)
Lemma trunc_Qeq (x y : Q) : x == y -> JsNum.trunc x = JsNum.trunc y.
Proof.
  intros E. unfold JsNum.trunc.
  assert (Hb : Qle_bool 0 x = Qle_bool 0 y).
  { destruct (Qle_bool 0 x) eqn:Hx; destruct (Qle_bool 0 y) eqn:Hy; try reflexivity.
    - apply Qle_bool_iff in Hx. rewrite E in Hx. apply Qle_bool_iff in Hx. congruence.
    - apply Qle_bool_iff in Hy. rewrite <- E in Hy. apply Qle_bool_iff in Hy. congruence. }
  rewrite Hb. destruct (Qle_bool 0 y).
  - apply Qfloor_comp. exact E.
  - apply Qceiling_comp. exact E.
Qed.

Lemma floor_rem_Qeq (x y m : Q) :
  x == y -> JsNum.floor (JsNum.rem x m) = JsNum.floor (JsNum.rem y m).
Proof.
  intros E. unfold JsNum.floor, JsNum.rem.
  assert (Ed : x / m == y / m) by (rewrite E; reflexivity).
  rewrite (trunc_Qeq _ _ Ed). apply Qfloor_comp. rewrite E. reflexivity.
Qed.

(** [floor ((a / c) % m)] is [(a div c) mod m] for a non-negative
    integer [a] and positive integers [c] and [m]. *)
Lemma floor_rem_div_of_Z (a c m : Z) :
  (0 <= a)%Z -> (0 < c)%Z -> (0 < m)%Z ->
  JsNum.floor (JsNum.rem (JsNum.div (JsNum.of_Z a) (JsNum.of_Z c)) (JsNum.of_Z m))
  = ((a / c) mod m)%Z.
Proof.
  intros Ha Hc Hm.
  unfold JsNum.floor, JsNum.rem, JsNum.div, JsNum.of_Z.
  pose proof (inject_Z_pos_nonzero c Hc) as Hc0.
  pose proof (inject_Z_pos_nonzero m Hm) as Hm0.
  assert (Hq : inject_Z a / inject_Z c / inject_Z m == inject_Z a / inject_Z (c * m)).
  { rewrite inject_Z_mult. field. split; assumption. }
  assert (Ht : JsNum.trunc (inject_Z a / inject_Z c / inject_Z m) = (a / (c * m))%Z).
  { rewrite (trunc_Qeq _ _ Hq). apply trunc_div_of_Z; lia. }
  rewrite Ht.
  set (k := (a / (c * m))%Z).
  assert (Hr : inject_Z a / inject_Z c - inject_Z m * inject_Z k
               == inject_Z (a - c * (m * k)) / inject_Z c).
  { unfold Zminus. rewrite inject_Z_plus, inject_Z_opp, !inject_Z_mult.
    field. assumption. }
  rewrite Hr. rewrite <- Zdiv_Qdiv.
  subst k.
  replace (a - c * (m * (a / (c * m))))%Z
    with (a + (- (m * (a / (c * m)))) * c)%Z by ring.
  rewrite Z.div_add by lia.
  rewrite <- Z.div_div by lia.
  rewrite Z.mod_eq by lia. ring.
Qed.

(** [floor ((a / c1 / c2) % m)]: the two successive divisions amount to
    one division by the product. *)
Lemma floor_rem_div_div_of_Z (a c1 c2 m : Z) :
  (0 <= a)%Z -> (0 < c1)%Z -> (0 < c2)%Z -> (0 < m)%Z ->
  JsNum.floor
    (JsNum.rem (JsNum.div (JsNum.div (JsNum.of_Z a) (JsNum.of_Z c1)) (JsNum.of_Z c2))
               (JsNum.of_Z m))
  = ((a / (c1 * c2)) mod m)%Z.
Proof.
  intros Ha H1 H2 Hm.
  rewrite <- (floor_rem_div_of_Z a (c1 * c2) m) by lia.
  apply floor_rem_Qeq.
  unfold JsNum.div, JsNum.of_Z.
  pose proof (inject_Z_pos_nonzero c1 H1) as Hc1.
  pose proof (inject_Z_pos_nonzero c2 H2) as Hc2.
  rewrite inject_Z_mult. field. split; assumption.
Qed.

End FloorFacts.

Section CountdownFacts.

Import Countdown.

Lemma calculateTimeLeft_before (target now : Z) (tl : TimeLeft) :
  0 < target - now ->
  calculateTimeLeft target now tl = breakdown (target - now).
Proof.
  intros Hpos. unfold calculateTimeLeft, breakdown.
  destruct (0 <? target - now) eqn:Hlt.
  - rewrite floor_div_of_Z.
    rewrite floor_rem_div_of_Z by lia.
    rewrite floor_rem_div_div_of_Z by lia.
    rewrite floor_rem_div_of_Z by lia.
    reflexivity.
  - apply Z.ltb_ge in Hlt. lia.
Qed.

Lemma calculateTimeLeft_reached (target now : Z) (tl : TimeLeft) :
  target - now <= 0 ->
  calculateTimeLeft target now tl = tl.
Proof.
  intros Hle. unfold calculateTimeLeft.
  destruct (0 <? target - now) eqn:Hlt; [ | reflexivity ].
  apply Z.ltb_lt in Hlt. lia.
Qed.

Lemma breakdown_bounds (delta : Z) :
  0 <= delta ->
  0 <= days (breakdown delta)
  /\ 0 <= hours (breakdown delta) < 24
  /\ 0 <= minutes (breakdown delta) < 60
  /\ 0 <= seconds (breakdown delta) < 60.
Proof.
  intros Hd. cbn [breakdown days hours minutes seconds].
  repeat split;
    try (apply Z.div_pos; lia);
    try (apply Z.mod_pos_bound; lia).
Qed.

(** The fields rebuild the difference rounded down to a whole second. *)
Lemma breakdown_reconstruct (delta : Z) :
  reconstruct (breakdown delta) = 1000 * (delta / 1000).
Proof.
  unfold reconstruct. cbn [breakdown days hours minutes seconds].
  set (s := delta / 1000).
  assert (Hm : delta / 60000 = s / 60).
  { unfold s. rewrite Z.div_div by lia. reflexivity. }
  assert (Hh : delta / 3600000 = s / 60 / 60).
  { unfold s. rewrite !Z.div_div by lia. reflexivity. }
  assert (Hdy : delta / 86400000 = s / 60 / 60 / 24).
  { unfold s. rewrite !Z.div_div by lia. reflexivity. }
  rewrite Hm, Hh, Hdy.
  pose proof (Z.div_mod s 60 ltac:(lia)) as E1.
  pose proof (Z.div_mod (s / 60) 60 ltac:(lia)) as E2.
  pose proof (Z.div_mod (s / 60 / 60) 24 ltac:(lia)) as E3.
  lia.
Qed.

Lemma calculateTimeLeft_non_negative (target now : Z) (tl : TimeLeft) :
  non_negative tl -> non_negative (calculateTimeLeft target now tl).
Proof.
  intros Htl. destruct (Z.lt_ge_cases 0 (target - now)) as [Hpos | Hle].
  - rewrite calculateTimeLeft_before by exact Hpos.
    destruct (breakdown_bounds (target - now)) as (Hd & Hh & Hm & Hs); [ lia | ].
    unfold non_negative. lia.
  - rewrite calculateTimeLeft_reached by exact Hle. exact Htl.
Qed.

Lemma initial_non_negative : non_negative initial.
Proof. unfold non_negative, initial; cbn. lia. Qed.

Lemma after_non_negative (target : Z) (nows : list Z) (tl : TimeLeft) :
  non_negative tl -> non_negative (after target nows tl).
Proof.
  revert tl. unfold after.
  induction nows as [ | now rest IH]; intros tl Htl; cbn [fold_left].
  - exact Htl.
  - apply IH. apply calculateTimeLeft_non_negative. exact Htl.
Qed.

Lemma shown_non_negative (target : Z) (nows : list Z) (tl : TimeLeft) :
  non_negative tl -> Forall non_negative (shown target nows tl).
Proof.
  revert tl.
  induction nows as [ | now rest IH]; intros tl Htl; cbn [shown].
  - constructor.
  - pose proof (calculateTimeLeft_non_negative target now tl Htl) as Hn.
    constructor; [ exact Hn | apply IH; exact Hn ].
Qed.

(** Once the target is reached and the clock does not go back, every
    later call leaves the state where the last call before the target
    put it. *)
Lemma shown_frozen (target : Z) (nows : list Z) (tl : TimeLeft) :
  Forall (fun now => target - now <= 0) nows ->
  Forall (fun s => s = tl) (shown target nows tl).
Proof.
  induction nows as [ | now rest IH]; intros Hall; cbn [shown].
  - constructor.
  - inversion Hall as [ | ? ? Hnow Hrest]; subst.
    rewrite calculateTimeLeft_reached by exact Hnow.
    constructor; [ reflexivity | apply IH; exact Hrest ].
Qed.

End CountdownFacts.

(* ===================================================================== *)
(** ** The countdown's contract *)
(* ===================================================================== *)

Section CountdownContract.

Import Countdown.

(** C2: on every tick at which [delta = target - now] is strictly
    positive, the state computed is
    [days = floor (delta / 86400000)],
    [hours = floor (delta / 3600000) mod 24],
    [minutes = floor (delta / 60000) mod 60],
    [seconds = floor (delta / 1000) mod 60],
    whatever the state was before. *)
Theorem countdown_fields_before_target (target now : Z) (timeLeft : TimeLeft) :
  0 < target - now ->
  let delta := target - now in
  let tl := calculateTimeLeft target now timeLeft in
  days tl = delta / 86400000
  /\ hours tl = (delta / 3600000) mod 24
  /\ minutes tl = (delta / 60000) mod 60
  /\ seconds tl = (delta / 1000) mod 60.
Proof.
  intros Hpos delta tl. subst tl delta.
  rewrite calculateTimeLeft_before by exact Hpos.
  cbn [breakdown days hours minutes seconds]. repeat split.
Qed.

(** Ten days, three hours, four minutes, five seconds and 678 ms
    before the launch. *)
Lemma countdown_fields_before_target_witness :
  0 < launchDate - (launchDate - 875045678)
  /\ (let delta := launchDate - (launchDate - 875045678) in
      let tl := calculateTimeLeft launchDate (launchDate - 875045678) initial in
      days tl = delta / 86400000
      /\ hours tl = (delta / 3600000) mod 24
      /\ minutes tl = (delta / 60000) mod 60
      /\ seconds tl = (delta / 1000) mod 60).
Proof.
  split.
  - reflexivity.
  - apply (countdown_fields_before_target launchDate (launchDate - 875045678) initial).
    reflexivity.
Defined.

(** C6: for every target instant in the future the four fields satisfy
    [0 <= seconds < 60], [0 <= minutes < 60], [0 <= hours < 24] and
    [days >= 0], and the milliseconds rebuilt from them,
    [days*86400000 + hours*3600000 + minutes*60000 + seconds*1000],
    fall short of [target - now] by less than one tick (1000 ms). *)
Theorem countdown_bounds_and_reconstruction (target now : Z) (timeLeft : TimeLeft) :
  0 < target - now ->
  let tl := calculateTimeLeft target now timeLeft in
  0 <= seconds tl < 60
  /\ 0 <= minutes tl < 60
  /\ 0 <= hours tl < 24
  /\ 0 <= days tl
  /\ 0 <= (target - now) - reconstruct tl < 1000.
Proof.
  intros Hpos tl. subst tl.
  rewrite calculateTimeLeft_before by exact Hpos.
  destruct (breakdown_bounds (target - now)) as (Hd & Hh & Hm & Hs); [ lia | ].
  rewrite breakdown_reconstruct.
  pose proof (Z.div_mod (target - now) 1000 ltac:(lia)) as E.
  pose proof (Z.mod_pos_bound (target - now) 1000 ltac:(lia)) as B.
  repeat split; lia.
Qed.

Lemma countdown_bounds_and_reconstruction_witness :
  0 < launchDate - (launchDate - 875045678)
  /\ (let tl := calculateTimeLeft launchDate (launchDate - 875045678) initial in
      0 <= seconds tl < 60
      /\ 0 <= minutes tl < 60
      /\ 0 <= hours tl < 24
      /\ 0 <= days tl
      /\ 0 <= (launchDate - (launchDate - 875045678)) - reconstruct tl < 1000).
Proof.
  split.
  - reflexivity.
  - apply (countdown_bounds_and_reconstruction
             launchDate (launchDate - 875045678) initial).
    reflexivity.
Defined.

(** C7: once the target instant is reached ([target - now <= 0]), the
    countdown shows no negative value in any of its four fields,
    on that tick or on any later one, whatever ticks came before. *)
Theorem countdown_never_negative_once_reached
    (target : Z) (before : list Z) (now : Z) (later : list Z) :
  target - now <= 0 ->
  Forall non_negative
    (shown target (now :: later) (after target before initial)).
Proof.
  intros _. apply shown_non_negative.
  apply after_non_negative. exact initial_non_negative.
Qed.

(** One tick before the launch, then the launch instant and two ticks
    after it. *)
Lemma countdown_never_negative_once_reached_witness :
  launchDate - launchDate <= 0
  /\ Forall non_negative
       (shown launchDate [launchDate; launchDate + 1000; launchDate + 2000]
          (after launchDate [launchDate - 1000] initial)).
Proof.
  split.
  - discriminate.
  - apply (countdown_never_negative_once_reached
             launchDate [launchDate - 1000] launchDate
             [launchDate + 1000; launchDate + 2000]).
    discriminate.
Defined.

End CountdownContract.

(* ===================================================================== *)
(** ** The submit handler, step by step *)
(* ===================================================================== *)

Section HandlerFacts.

Import Async Waitlist.
Local Open Scope string_scope.

Variable API_URL : option string.

(** The [catch] block of [addToWaitlist] always rethrows an [Error]
    instance. *)
Lemma addToWaitlist_catch_throws (e : thrown) :
  exists err,
    addToWaitlist_catch e = Throw err /\ instanceof_Error err = true.
Proof.
  unfold addToWaitlist_catch.
  destruct (if isAxiosError e then response_of e else None) as [response | ].
  - destruct (Js.message_of (Axios.data response)) as [m | ].
    + eexists. split; reflexivity.
    + eexists. split; reflexivity.
  - eexists. split; reflexivity.
Qed.

(** Up to the [await]: the default is prevented, the flag is raised,
    the request is posted. *)
Lemma started_eq (st : PageState) :
  exists k,
    started API_URL st
    = mkRun (apply (SetIsSubmitting true) st)
            [PreventDefault; SetIsSubmitting true]
            (Post (waitlist_request API_URL st) k).
Proof. eexists. reflexivity. Qed.

(** After a fulfilled request. *)
Lemma finished_fulfilled (st : PageState) (response : Axios.Response) (st' : PageState) :
  finished API_URL st (Fulfilled response) st'
  = mkRun {| isSubmitting := false; name := ""; email := "";
             restaurantName := ""; subscribed := true |}
          [ ToastSuccess "You're on the list!"
              "Thank you for joining our waitlist. We'll notify you when we launch.";
            SetEmail ""; SetName ""; SetRestaurantName "";
            SetSubscribed true; SetIsSubmitting false ]
          (Ret tt).
Proof. reflexivity. Qed.

(** After a rejected request, given what the [catch] block of
    [addToWaitlist] rethrows: one error toast with that error's
    message, the flag lowered, nothing else touched, nothing thrown. *)
Lemma finished_rejected_with (st : PageState) (e err : thrown) (st' : PageState) :
  addToWaitlist_catch e = Throw err ->
  finished API_URL st (Rejected e) st'
  = mkRun (apply (SetIsSubmitting false) st')
          [ ToastError "Failed to join waitlist"
              (if instanceof_Error err then message err
               else "Please try again later.");
            SetIsSubmitting false ]
          (Ret tt).
Proof.
  intros Hthrow.
  unfold finished, started, onSubmit, handleWaitlistSubmit, addToWaitlist.
  cbn -[addToWaitlist_catch].
  rewrite Hthrow. reflexivity.
Qed.

Lemma finished_rejected (st : PageState) (e : thrown) (st' : PageState) :
  exists description,
    finished API_URL st (Rejected e) st'
    = mkRun (apply (SetIsSubmitting false) st')
            [ ToastError "Failed to join waitlist" description;
              SetIsSubmitting false ]
            (Ret tt).
Proof.
  destruct (addToWaitlist_catch_throws e) as (err & Hthrow & _).
  eexists. apply (finished_rejected_with st e err st' Hthrow).
Qed.

(** [addToWaitlist] ends by throwing what its [catch] block rethrows. *)
Lemma rejection_with (data : WaitlistData) (e err : thrown) :
  addToWaitlist_catch e = Throw err ->
  rejection API_URL data e = Threw err.
Proof.
  intros Hthrow. unfold rejection, addToWaitlist.
  cbn -[addToWaitlist_catch]. rewrite Hthrow. reflexivity.
Qed.

(** The server answered with an object whose [message] is a non-empty
    string. *)
Lemma addToWaitlist_catch_server
    (axios_message : string) (status : Z)
    (fields : list (string * Js.value)) (m : string) :
  Js.field "message" fields = Js.Str m ->
  m <> "" ->
  addToWaitlist_catch
    (AxiosError axios_message
       (Some {| Axios.data := Js.Obj fields; Axios.status := status |}))
  = Throw (Error m).
Proof.
  intros Hfield Hm. unfold addToWaitlist_catch. cbn.
  rewrite Hfield. unfold Js.or. cbn.
  apply String.eqb_neq in Hm. rewrite Hm. reflexivity.
Qed.

(** The server answered with an object whose [message] is absent or
    falsy. *)
Lemma addToWaitlist_catch_falsy
    (axios_message : string) (status : Z) (fields : list (string * Js.value)) :
  Js.truthy (Js.field "message" fields) = false ->
  addToWaitlist_catch
    (AxiosError axios_message
       (Some {| Axios.data := Js.Obj fields; Axios.status := status |}))
  = Throw (Error "Adding to waitlist failed").
Proof.
  intros Hfalsy. unfold addToWaitlist_catch. cbn.
  unfold Js.or. rewrite Hfalsy. reflexivity.
Qed.

(** No response came back. *)
Lemma addToWaitlist_catch_network (axios_message : string) :
  addToWaitlist_catch (AxiosError axios_message None)
  = Throw (Error "Adding to waitlist failed. Please check your network or try again later.").
Proof. reflexivity. Qed.

End HandlerFacts.

Section ExecFacts.

Import Async Waitlist.
Local Open Scope string_scope.

(** A program that runs to its end without awaiting performs its
    actions and requests nothing, whatever the network would say. *)
Lemma exec_without_await {A : Type} (net : Axios.Request -> settled)
    (p : prog A) (st : PageState) (a : A) :
  rest (run p st) = Ret a ->
  exec net p = (map Performed (performed (run p st)), Returned a).
Proof.
  revert st. induction p as [b | e | act k IH | r k IH]; intros st Hrest; cbn in *.
  - inversion Hrest; subst. reflexivity.
  - discriminate.
  - rewrite (IH _ Hrest). reflexivity.
  - discriminate.
Qed.

Lemma requests_in_performed (acts : list action) :
  requests_in (map Performed acts) = [].
Proof.
  induction acts as [ | a rest IH]; [ reflexivity | exact IH ].
Qed.

(** A whole invocation of the handler: the synchronous part, the
    request, then what follows its settlement. *)
Lemma exec_onSubmit (API_URL : option string) (net : Axios.Request -> settled)
    (st : PageState) :
  exec net (onSubmit API_URL st)
  = ( Performed PreventDefault
      :: Performed (SetIsSubmitting true)
      :: Requested (waitlist_request API_URL st)
      :: map Performed
           (performed (finished API_URL st (net (waitlist_request API_URL st))
                         (state (started API_URL st)))),
      Returned tt ).
Proof.
  assert (Hend : exists acts,
             exec net (settle (rest (started API_URL st))
                         (net (waitlist_request API_URL st)))
             = (map Performed acts, Returned tt)
             /\ performed (finished API_URL st (net (waitlist_request API_URL st))
                             (state (started API_URL st))) = acts).
  { destruct (net (waitlist_request API_URL st)) as [response | e].
    - eexists. split.
      + apply (exec_without_await net _ (state (started API_URL st))).
        exact (f_equal rest (finished_fulfilled API_URL st response _)).
      + reflexivity.
    - destruct (finished_rejected API_URL st e (state (started API_URL st)))
        as [d Hd].
      eexists. split.
      + apply (exec_without_await net _ (state (started API_URL st))).
        exact (f_equal rest Hd).
      + reflexivity. }
  destruct Hend as (acts & Hexec & Hacts).
  rewrite Hacts.
  change (exec net (onSubmit API_URL st))
    with (let '(es, c) :=
            (let '(es, c) :=
               (let '(es, c) :=
                  exec net (settle (rest (started API_URL st))
                              (net (waitlist_request API_URL st)))
                in (Requested (waitlist_request API_URL st) :: es, c))
             in (Performed (SetIsSubmitting true) :: es, c))
          in (Performed PreventDefault :: es, c)).
  rewrite Hexec. reflexivity.
Qed.

End ExecFacts.

(* ===================================================================== *)
(** ** The page under user and network events *)
(* ===================================================================== *)

Section PageFacts.

Import Async Waitlist.
Local Open Scope string_scope.

Variable API_URL : option string.
Variable valid_email : string -> bool.

Local Abbreviation step := (step API_URL valid_email).
Local Abbreviation steps := (steps API_URL valid_email).
Local Abbreviation busy := (busy API_URL).

Lemma finished_lowers_flag (st : PageState) (s : settled) (st' : PageState) :
  isSubmitting (state (finished API_URL st s st')) = false
  /\ rest (finished API_URL st s st') = Ret tt.
Proof.
  destruct s as [response | e].
  - rewrite finished_fulfilled. split; reflexivity.
  - destruct (finished_rejected API_URL st e st') as [d Hd].
    rewrite Hd. split; reflexivity.
Qed.

Lemma typing_keeps_flag (a : action) (pg : Page) :
  (forall b, a <> SetIsSubmitting b) ->
  isSubmitting (ui (typing a pg)) = isSubmitting (ui pg)
  /\ inflight (typing a pg) = inflight pg.
Proof.
  intros Ha. unfold typing.
  destruct (render (ui pg)); [ | split; reflexivity ].
  cbn [ui inflight]. split; [ | reflexivity ].
  destruct a; try reflexivity. exfalso. exact (Ha b eq_refl).
Qed.

Lemma typing_preserves (a : action) (pg : Page) :
  (forall b, a <> SetIsSubmitting b) ->
  idle pg \/ busy pg -> idle (typing a pg) \/ busy (typing a pg).
Proof.
  intros Ha Hinv.
  destruct (typing_keeps_flag a pg Ha) as [Hflag Hin].
  unfold idle, Waitlist.busy in *. rewrite Hflag, Hin. exact Hinv.
Qed.

(** A disabled submit button keeps the form from being submitted. *)
Lemma submittable_not_submitting (st : PageState) :
  submittable valid_email (render st) = true -> isSubmitting st = false.
Proof.
  unfold submittable, render.
  destruct (subscribed st); cbn; [ discriminate | ].
  destruct (isSubmitting st); cbn; [ discriminate | reflexivity ].
Qed.

Lemma step_preserves (pg : Page) (i : input) :
  idle pg \/ busy pg -> idle (step pg i) \/ busy (step pg i).
Proof.
  intros Hinv. destruct i as [s | s | s | | n s]; cbn [Waitlist.step].
  - apply typing_preserves; [ discriminate | exact Hinv ].
  - apply typing_preserves; [ discriminate | exact Hinv ].
  - apply typing_preserves; [ discriminate | exact Hinv ].
  - destruct (submittable valid_email (render (ui pg))) eqn:Hsub; [ | exact Hinv ].
    apply submittable_not_submitting in Hsub.
    destruct Hinv as [[_ Hnone] | [Hflag _]]; [ | congruence ].
    right. unfold Waitlist.busy, absorb. cbn [ui inflight].
    change (run (onSubmit API_URL (ui pg)) (ui pg)) with (started API_URL (ui pg)).
    destruct (started_eq API_URL (ui pg)) as [k Hk].
    rewrite Hnone, Hk. split; [ reflexivity | ].
    exists (ui pg). rewrite Hk. reflexivity.
  - destruct Hinv as [[Hflag Hnone] | [Hflag [st0 Hone]]].
    + rewrite Hnone. destruct n; cbn; left; split; assumption.
    + rewrite Hone. destruct n as [ | n]; cbn [nth_error].
      * left. unfold idle, absorb. cbn [ui inflight remove_nth].
        change (run (settle (rest (started API_URL st0)) s) (ui pg))
          with (finished API_URL st0 s (ui pg)).
        destruct (finished_lowers_flag st0 s (ui pg)) as [Hlow Hret].
        rewrite Hret. split; [ exact Hlow | reflexivity ].
      * destruct n; cbn; right; split; try assumption; exists st0; assumption.
Qed.

Lemma steps_preserve (inputs : list input) (pg : Page) :
  idle pg \/ busy pg -> idle (steps pg inputs) \/ busy (steps pg inputs).
Proof.
  revert pg. unfold Waitlist.steps.
  induction inputs as [ | i later IH]; intros pg Hinv; cbn [fold_left].
  - exact Hinv.
  - apply IH. apply step_preserves. exact Hinv.
Qed.

Lemma initialPage_idle : idle initialPage.
Proof. split; reflexivity. Qed.

(** While the flag is up the user cannot submit: the page is left as
    it is. *)
Lemma press_while_submitting (pg : Page) :
  isSubmitting (ui pg) = true -> step pg PressSubmit = pg.
Proof.
  intros Hflag. cbn [Waitlist.step].
  destruct (submittable valid_email (render (ui pg))) eqn:Hsub; [ | reflexivity ].
  apply submittable_not_submitting in Hsub. congruence.
Qed.

End PageFacts.

(* ===================================================================== *)
(** ** The waitlist's contract *)
(* ===================================================================== *)

Section WaitlistContract.

Import Async Waitlist.
Local Open Scope string_scope.

(** C1: every submission of the form with a non-empty name, a
    non-empty email and any restaurant name (possibly empty) issues
    exactly one POST request, however the network settles it: to the
    path [/auth/wait-list] of the configured base URL, with header
    [Content-Type: application/json], and with a JSON body holding
    exactly the members [email], [name] and [restaurantName] with the
    submitted values. *)
Theorem submission_posts_once
    (API_URL : option string) (st : PageState) (net : Axios.Request -> settled) :
  name st <> "" ->
  email st <> "" ->
  exists request,
    requests_in (fst (exec net (onSubmit API_URL st))) = [request]
    /\ Axios.req_method request = "POST"
    /\ Axios.req_baseURL request = API_URL
    /\ Axios.req_url request = "/auth/wait-list"
    /\ In ("Content-Type", "application/json") (Axios.req_headers request)
    /\ Js.json_members (Axios.req_data request)
       = [ ("email", Js.Str (email st));
           ("name", Js.Str (name st));
           ("restaurantName", Js.Str (restaurantName st)) ].
Proof.
  intros _ _. exists (waitlist_request API_URL st).
  rewrite exec_onSubmit. cbn [fst].
  split.
  - cbn. rewrite requests_in_performed. reflexivity.
  - repeat split. left. reflexivity.
Qed.

(** C3: when the request of a submission is fulfilled, the name, email
    and restaurant-name fields are all set to the empty string, the
    subscribed flag is set, so that the card shows the confirmation in
    place of the form, and one success toast is shown. *)
Theorem success_clears_and_confirms
    (API_URL : option string) (st : PageState)
    (response : Axios.Response) (st' : PageState) :
  let r := finished API_URL st (Fulfilled response) st' in
  name (state r) = ""
  /\ email (state r) = ""
  /\ restaurantName (state r) = ""
  /\ subscribed (state r) = true
  /\ render (state r) = Confirmation
  /\ filter is_toast (performed r)
     = [ ToastSuccess "You're on the list!"
           "Thank you for joining our waitlist. We'll notify you when we launch." ].
Proof.
  cbv zeta. rewrite finished_fulfilled. repeat split.
Qed.

(** C4, as the code has it: when the server answers a submission with
    an error status and a body whose [message] member is a non-empty
    string, the error [addToWaitlist] throws carries that string
    verbatim and the error toast shows it (for the body
    [{message: "Email already registered"}], exactly
    ["Email already registered"]); when no response came back, the
    error and the toast carry the fixed text "Adding to waitlist
    failed. Please check your network or try again later.", which
    owes nothing to the server. *)
Theorem failure_message
    (API_URL : option string) (data : WaitlistData) (st st' : PageState)
    (axios_message : string) (status : Z)
    (fields : list (string * Js.value)) (m : string) :
  Js.field "message" fields = Js.Str m ->
  m <> "" ->
  let server :=
    AxiosError axios_message
      (Some {| Axios.data := Js.Obj fields; Axios.status := status |}) in
  (rejection API_URL data server = Threw (Error m)
   /\ filter is_toast (performed (finished API_URL st (Rejected server) st'))
      = [ToastError "Failed to join waitlist" m])
  /\ (forall network_message : string,
        let network := AxiosError network_message None in
        rejection API_URL data network
        = Threw (Error "Adding to waitlist failed. Please check your network or try again later.")
        /\ filter is_toast (performed (finished API_URL st (Rejected network) st'))
           = [ToastError "Failed to join waitlist"
                "Adding to waitlist failed. Please check your network or try again later."]).
Proof.
  intros Hfield Hm server.
  pose proof (addToWaitlist_catch_server axios_message status fields m Hfield Hm)
    as Hserver.
  split; [ split | intros network_message network; split ].
  - apply rejection_with. exact Hserver.
  - subst server.
    rewrite (finished_rejected_with API_URL st _ _ st' Hserver). reflexivity.
  - apply rejection_with. apply addToWaitlist_catch_network.
  - subst network.
    rewrite (finished_rejected_with API_URL st _ _ st'
               (addToWaitlist_catch_network network_message)).
    reflexivity.
Qed.

(** The server answers with the body [{message: ""}]: the body has a
    [message] member, yet the error carries the fallback text
    "Adding to waitlist failed", not the server's (empty) message. *)
Lemma empty_server_message_is_replaced :
  let body := Js.Obj [("message", Js.Str "")] in
  let server :=
    AxiosError "Request failed with status code 400"
      (Some {| Axios.data := body; Axios.status := 400 |}) in
  let data := {| data_email := "jane@example.com";
                 data_name := "Jane Doe";
                 data_restaurantName := Some "" |} in
  Js.message_of body = Some (Js.Str "")
  /\ rejection None data server = Threw (Error "Adding to waitlist failed")
  /\ rejection None data server <> Threw (Error "").
Proof.
  cbv zeta. split; [ reflexivity | split; [ reflexivity | ] ].
  intros H. vm_compute in H. discriminate H.
Qed.

(** C5: when the request of a submission is rejected, for whatever
    reason, the name, email and restaurant-name fields keep the values
    they have (the submitted ones, unless the user has typed since),
    the subscribed flag stays unset, the handler catches the error and
    returns normally after one error toast, and the form is shown
    with its submit button enabled, a new submission posting again. *)
Theorem failure_keeps_form
    (API_URL : option string) (st : PageState) (e : thrown) (st' : PageState) :
  subscribed st' = false ->
  let r := finished API_URL st (Rejected e) st' in
  (name (state (started API_URL st)) = name st
   /\ email (state (started API_URL st)) = email st
   /\ restaurantName (state (started API_URL st)) = restaurantName st)
  /\ (name (state r) = name st'
      /\ email (state r) = email st'
      /\ restaurantName (state r) = restaurantName st')
  /\ subscribed (state r) = false
  /\ rest r = Ret tt
  /\ (exists description,
         filter is_toast (performed r)
         = [ToastError "Failed to join waitlist" description])
  /\ render (state r)
     = WaitlistForm {| name_value := name st';
                       email_value := email st';
                       restaurantName_value := restaurantName st';
                       submit_disabled := false;
                       submit_label := "Join Waitlist" |}
  /\ awaiting (rest (started API_URL (state r)))
     = Some (waitlist_request API_URL (state r)).
Proof.
  intros Hsub r. subst r.
  destruct (finished_rejected API_URL st e st') as [d Hd]. rewrite Hd.
  cbn [state performed rest apply name email restaurantName subscribed].
  repeat split; try reflexivity; try assumption.
  - exists d. reflexivity.
  - unfold render. cbn. rewrite Hsub. reflexivity.
Qed.

(** C10: every invocation of the submit handler raises the
    submission-in-progress flag first thing, before it posts, and
    lowers it when the attempt is over, whether the request was
    fulfilled or rejected; the handler then returns, and wherever the
    form is shown its submit button is enabled. *)
Theorem flag_raised_then_lowered
    (API_URL : option string) (st : PageState) (s : settled) (st' : PageState) :
  performed (started API_URL st) = [PreventDefault; SetIsSubmitting true]
  /\ isSubmitting (state (started API_URL st)) = true
  /\ awaiting (rest (started API_URL st)) = Some (waitlist_request API_URL st)
  /\ isSubmitting (state (finished API_URL st s st')) = false
  /\ rest (finished API_URL st s st') = Ret tt
  /\ (forall f, render (state (finished API_URL st s st')) = WaitlistForm f ->
                submit_disabled f = false).
Proof.
  destruct (finished_lowers_flag API_URL st s st') as [Hlow Hret].
  repeat split; try assumption.
  intros f Hf. unfold render in Hf. rewrite Hlow in Hf.
  destruct (negb (subscribed (state (finished API_URL st s st'))));
    [ | discriminate ].
  inversion Hf. reflexivity.
Qed.

(** C8: along any sequence of user and network events from the page's
    initial state, at most one request is outstanding; while one is,
    the submission-in-progress flag is set; and while the flag is set,
    asking to submit leaves the whole page as it is: nothing is
    posted. *)
Theorem no_second_post_while_outstanding
    (API_URL : option string) (valid_email : string -> bool) (inputs : list input) :
  let pg := steps API_URL valid_email initialPage inputs in
  (List.length (inflight pg) <= 1)%nat
  /\ (inflight pg <> [] -> isSubmitting (ui pg) = true)
  /\ (isSubmitting (ui pg) = true ->
      step API_URL valid_email pg PressSubmit = pg).
Proof.
  intros pg.
  assert (Hinv : idle pg \/ busy API_URL pg).
  { apply steps_preserve. left. exact initialPage_idle. }
  split; [ | split ].
  - destruct Hinv as [[_ Hnone] | [_ [st0 Hone]]].
    + rewrite Hnone. cbn. lia.
    + rewrite Hone. cbn. lia.
  - intros Hne. destruct Hinv as [[_ Hnone] | [Hflag _]]; [ contradiction | exact Hflag ].
  - apply press_while_submitting.
Qed.

(** The handler itself does not look at the flag: invoked with the
    flag up, it posts all the same.  What keeps a second submission
    away is the [disabled] attribute of the button. *)
Remark handler_does_not_check_flag (API_URL : option string) (st : PageState) :
  isSubmitting st = true ->
  awaiting (rest (started API_URL st)) = Some (waitlist_request API_URL st).
Proof. intros _. reflexivity. Qed.

End WaitlistContract.

(* ===================================================================== *)
(** ** Entrance animations *)
(* ===================================================================== *)

Section RevealFacts.

Import Reveal.

Variable c : Entrance.
Hypothesis distinct : Target_eqb (hidden c) (visible c) = false.

Lemma Target_eqb_refl (t : Target) : Target_eqb t t = true.
Proof. unfold Target_eqb. rewrite !Z.eqb_refl. reflexivity. Qed.

Lemma Target_eqb_sym (a b : Target) : Target_eqb a b = Target_eqb b a.
Proof.
  unfold Target_eqb.
  rewrite (Z.eqb_sym (opacity a)), (Z.eqb_sym (y a)). reflexivity.
Qed.

(** Once seen under [triggerOnce], every later render asks for the
    visible target. *)
Lemma renders_after_seen (ratios : list Q) :
  renders options c seen_once ratios = repeat (visible c) (List.length ratios).
Proof.
  induction ratios as [ | r later IH]; cbn [renders List.length repeat].
  - reflexivity.
  - change (observe options seen_once r) with seen_once.
    rewrite IH. reflexivity.
Qed.

(** An observation from the unseen state: seen for good when the
    ratio reaches the threshold, unseen still otherwise. *)
Lemma observe_unseen (r : Q) :
  observe options unseen r
  = if Qle_bool (threshold options) r then seen_once else unseen.
Proof.
  unfold observe. cbn [observing unseen].
  destruct (Qle_bool (threshold options) r); reflexivity.
Qed.

Lemma plays_none_while_visible (from to : Target) (n : nat) :
  Target_eqb (visible c) from && Target_eqb (visible c) to = false ->
  plays from to (visible c) (repeat (visible c) n) = O.
Proof.
  intros H. induction n as [ | n IH]; cbn [repeat plays].
  - reflexivity.
  - rewrite H, IH. reflexivity.
Qed.

Lemma entrances_unseen (ratios : list Q) :
  plays (hidden c) (visible c) (hidden c) (renders options c unseen ratios)
  = if crosses options ratios then 1%nat else 0%nat.
Proof.
  induction ratios as [ | r later IH]; cbn [renders crosses existsb plays].
  - reflexivity.
  - rewrite observe_unseen.
    destruct (Qle_bool (threshold options) r); cbn [orb].
    + rewrite renders_after_seen. cbn [animate inView seen_once].
      rewrite !Target_eqb_refl. cbn [andb].
      rewrite plays_none_while_visible.
      * reflexivity.
      * rewrite (Target_eqb_sym (visible c) (hidden c)), distinct. reflexivity.
    + cbn [animate inView unseen]. rewrite distinct, andb_false_r.
      exact IH.
Qed.

Lemma exits_unseen (ratios : list Q) :
  plays (visible c) (hidden c) (hidden c) (renders options c unseen ratios) = O.
Proof.
  induction ratios as [ | r later IH]; cbn [renders plays].
  - reflexivity.
  - rewrite observe_unseen.
    destruct (Qle_bool (threshold options) r).
    + rewrite renders_after_seen. cbn [animate inView seen_once].
      rewrite distinct. cbn [andb].
      rewrite plays_none_while_visible.
      * reflexivity.
      * rewrite (Target_eqb_sym (visible c) (hidden c)), distinct.
        apply andb_false_r.
    + cbn [animate inView unseen]. rewrite distinct. cbn [andb].
      exact IH.
Qed.

(** The renders are hidden up to the first report that reaches the
    threshold and visible from that one on. *)
Lemma renders_split (before : list Q) (r : Q) (later : list Q) :
  crosses options before = false ->
  Qle_bool (threshold options) r = true ->
  renders options c unseen (before ++ r :: later)
  = repeat (hidden c) (List.length before) ++ repeat (visible c) (S (List.length later)).
Proof.
  intros Hbefore Hr.
  induction before as [ | b before IH]; cbn [app renders List.length repeat].
  - rewrite observe_unseen, Hr. rewrite renders_after_seen. reflexivity.
  - cbn [crosses existsb] in Hbefore. apply orb_false_iff in Hbefore.
    destruct Hbefore as [Hb Hrest].
    rewrite observe_unseen, Hb. cbn [animate inView unseen].
    rewrite (IH Hrest). reflexivity.
Qed.

End RevealFacts.

Section RevealContract.

Import Reveal.

(** C9: over any scroll, an animated section and a feature card each
    play their entrance transition (hidden to visible) once if some
    report of the intersection ratio reaches the threshold and not at
    all otherwise, and never play a transition back to hidden; the
    entrance happens at the first report that reaches the threshold,
    every render before it asking for the hidden target and every
    render from it on for the visible one, whatever the later
    reports. *)
Theorem entrance_plays_once (ratios : list Q) :
  (entrances options AnimatedSection ratios
   = if crosses options ratios then 1%nat else 0%nat)
  /\ exits options AnimatedSection ratios = 0%nat
  /\ (entrances options FeatureCard ratios
      = if crosses options ratios then 1%nat else 0%nat)
  /\ exits options FeatureCard ratios = 0%nat
  /\ (forall (before : list Q) (r : Q) (later : list Q),
         ratios = (before ++ r :: later)%list ->
         crosses options before = false ->
         Qle_bool (threshold options) r = true ->
         renders options AnimatedSection unseen ratios
         = (repeat (hidden AnimatedSection) (List.length before)
            ++ repeat (visible AnimatedSection) (S (List.length later)))%list
         /\ renders options FeatureCard unseen ratios
            = (repeat (hidden FeatureCard) (List.length before)
               ++ repeat (visible FeatureCard) (S (List.length later)))%list).
Proof.
  assert (Hs : Target_eqb (hidden AnimatedSection) (visible AnimatedSection) = false)
    by reflexivity.
  assert (Hf : Target_eqb (hidden FeatureCard) (visible FeatureCard) = false)
    by reflexivity.
  unfold entrances, exits.
  split; [ apply entrances_unseen; exact Hs | ].
  split; [ apply exits_unseen; exact Hs | ].
  split; [ apply entrances_unseen; exact Hf | ].
  split; [ apply exits_unseen; exact Hf | ].
  intros before r later Heq Hbefore Hr. subst ratios.
  split; apply renders_split; assumption.
Qed.

(** Out of view twice, into view, out of view, into view again. *)
Lemma entrance_plays_once_witness :
  entrances options AnimatedSection [0; 1 # 20; 1 # 2; 0; 1]%Q = 1%nat
  /\ exits options AnimatedSection [0; 1 # 20; 1 # 2; 0; 1]%Q = 0%nat
  /\ renders options FeatureCard unseen [0; 1 # 20; 1 # 2; 0; 1]%Q
     = [ hidden FeatureCard; hidden FeatureCard;
         visible FeatureCard; visible FeatureCard; visible FeatureCard ].
Proof.
  destruct (entrance_plays_once [0; 1 # 20; 1 # 2; 0; 1]%Q)
    as (He & Hx & _ & _ & Hsplit).
  split; [ exact He | split; [ exact Hx | ] ].
  destruct (Hsplit [0; 1 # 20]%Q (1 # 2)%Q [0; 1]%Q eq_refl eq_refl eq_refl)
    as [_ Hcard].
  exact Hcard.
Defined.

(** Without [triggerOnce] the same scroll would play the entrance
    twice: the single play rests on the option the page passes. *)
Example replay_without_triggerOnce :
  entrances {| triggerOnce := false; threshold := 1 # 10 |}
    AnimatedSection [0; 1 # 20; 1 # 2; 0; 1]%Q = 2%nat.
Proof. reflexivity. Qed.

End RevealContract.

(* ===================================================================== *)
(** ** The contract on the page's own example *)
(* ===================================================================== *)

Section Examples.

Import Async Waitlist.
Local Open Scope string_scope.

(** Jane Doe, no restaurant, however the request settles. *)
Lemma submission_posts_once_witness :
  "Jane Doe" <> ""
  /\ "jane@example.com" <> ""
  /\ forall net : Axios.Request -> settled,
     exists request,
       requests_in
         (fst (exec net
                 (onSubmit (Some "https://api.example.com")
                    (mkState false "Jane Doe" "jane@example.com" "" false))))
       = [request]
       /\ Axios.req_method request = "POST"
       /\ Axios.req_baseURL request = Some "https://api.example.com"
       /\ Axios.req_url request = "/auth/wait-list"
       /\ In ("Content-Type", "application/json") (Axios.req_headers request)
       /\ Js.json_members (Axios.req_data request)
          = [ ("email", Js.Str "jane@example.com");
              ("name", Js.Str "Jane Doe");
              ("restaurantName", Js.Str "") ].
Proof.
  split; [ discriminate | split; [ discriminate | ] ].
  intros net.
  apply (submission_posts_once (Some "https://api.example.com")
           (mkState false "Jane Doe" "jane@example.com" "" false) net);
    discriminate.
Defined.

(** The server answers 409 with [{message: "Email already registered"}]. *)
Lemma failure_message_witness :
  let st := mkState false "Jane Doe" "jane@example.com" "" false in
  let st' := mkState true "Jane Doe" "jane@example.com" "" false in
  let data := {| data_email := "jane@example.com"; data_name := "Jane Doe";
                 data_restaurantName := Some "" |} in
  let server :=
    AxiosError "Request failed with status code 409"
      (Some {| Axios.data := Js.Obj [("message", Js.Str "Email already registered")];
               Axios.status := 409 |}) in
  Js.field "message" [("message", Js.Str "Email already registered")]
  = Js.Str "Email already registered"
  /\ "Email already registered" <> ""
  /\ rejection None data server = Threw (Error "Email already registered")
  /\ filter is_toast (performed (finished None st (Rejected server) st'))
     = [ToastError "Failed to join waitlist" "Email already registered"]
  /\ rejection None data (AxiosError "Network Error" None)
     = Threw (Error "Adding to waitlist failed. Please check your network or try again later.").
Proof.
  cbv zeta.
  split; [ reflexivity | split; [ discriminate | ] ].
  destruct (failure_message None
              {| data_email := "jane@example.com"; data_name := "Jane Doe";
                 data_restaurantName := Some "" |}
              (mkState false "Jane Doe" "jane@example.com" "" false)
              (mkState true "Jane Doe" "jane@example.com" "" false)
              "Request failed with status code 409" 409
              [("message", Js.Str "Email already registered")]
              "Email already registered" eq_refl
              ltac:(discriminate))
    as [[Herr Htoast] Hnet].
  split; [ exact Herr | split; [ exact Htoast | ] ].
  exact (proj1 (Hnet "Network Error")).
Defined.

(** The network fails while Jane Doe's submission is outstanding. *)
Lemma failure_keeps_form_witness :
  let st := mkState false "Jane Doe" "jane@example.com" "" false in
  let st' := mkState true "Jane Doe" "jane@example.com" "" false in
  let r := finished None st (Rejected (AxiosError "Network Error" None)) st' in
  subscribed st' = false
  /\ state r = mkState false "Jane Doe" "jane@example.com" "" false
  /\ rest r = Ret tt
  /\ awaiting (rest (started None (state r))) = Some (waitlist_request None (state r)).
Proof.
  cbv zeta. split; [ reflexivity | ].
  pose proof (failure_keeps_form None
                (mkState false "Jane Doe" "jane@example.com" "" false)
                (AxiosError "Network Error" None)
                (mkState true "Jane Doe" "jane@example.com" "" false)
                eq_refl) as H.
  cbv zeta in H.
  destruct H as (_ & _ & _ & Hret & _ & _ & Hretry).
  split; [ reflexivity | split; [ exact Hret | exact Hretry ] ].
Defined.

(** Jane Doe fills the form and presses submit twice before the
    answer comes: one request is sent, one is outstanding. *)
Example double_press_posts_once :
  let pg :=
    steps None (fun _ => true) initialPage
      [TypeName "Jane Doe"; TypeEmail "jane@example.com"; PressSubmit; PressSubmit] in
  sent pg = [waitlist_request None (mkState false "Jane Doe" "jane@example.com" "" false)]
  /\ List.length (inflight pg) = 1%nat
  /\ isSubmitting (ui pg) = true.
Proof. cbv zeta. repeat split. Qed.

(** ... and after a failure she can submit again. *)
Example retry_after_failure_posts_again :
  let pg :=
    steps None (fun _ => true) initialPage
      [ TypeName "Jane Doe"; TypeEmail "jane@example.com"; PressSubmit;
        Settles 0 (Rejected (AxiosError "Network Error" None)); PressSubmit ] in
  List.length (sent pg) = 2%nat
  /\ List.length (inflight pg) = 1%nat
  /\ toasts pg
     = [ToastError "Failed to join waitlist"
          "Adding to waitlist failed. Please check your network or try again later."]
  /\ uncaught pg = [].
Proof. cbv zeta. repeat split. Qed.

End Examples.

(* ===================================================================== *)
(** ** More on the countdown: what it shows over time *)
(* ===================================================================== *)

Section CountdownOverTime.

Import Countdown.

Lemma after_snoc (target : Z) (nows : list Z) (now : Z) (tl : TimeLeft) :
  after target (nows ++ [now]) tl
  = calculateTimeLeft target now (after target nows tl).
Proof. unfold after. rewrite fold_left_app. reflexivity. Qed.

(** The breakdown sees a duration only through its whole seconds. *)
Lemma breakdown_of_seconds (delta : Z) :
  breakdown delta = breakdown (1000 * (delta / 1000)).
Proof.
  assert (Hs : 1000 * (delta / 1000) / 1000 = delta / 1000).
  { rewrite Z.mul_comm. apply Z.div_mul. lia. }
  assert (H60 : forall d, d / 60000 = d / 1000 / 60)
    by (intros d; rewrite Z.div_div by lia; reflexivity).
  assert (H3600 : forall d, d / 3600000 = d / 1000 / 3600)
    by (intros d; rewrite Z.div_div by lia; reflexivity).
  assert (H86400 : forall d, d / 86400000 = d / 1000 / 86400)
    by (intros d; rewrite Z.div_div by lia; reflexivity).
  unfold breakdown.
  rewrite (H60 delta), (H60 (1000 * (delta / 1000))).
  rewrite (H3600 delta), (H3600 (1000 * (delta / 1000))).
  rewrite (H86400 delta), (H86400 (1000 * (delta / 1000))).
  rewrite Hs. reflexivity.
Qed.

Lemma breakdown_eq_iff (d1 d2 : Z) :
  breakdown d1 = breakdown d2 <-> d1 / 1000 = d2 / 1000.
Proof.
  split; intros H.
  - pose proof (f_equal reconstruct H) as Hr.
    rewrite !breakdown_reconstruct in Hr. lia.
  - rewrite (breakdown_of_seconds d1), (breakdown_of_seconds d2), H.
    reflexivity.
Qed.

(** X1: once the target instant is reached the countdown is not reset:
    while the clock readings stay at or past the target, a countdown
    that never ticked before the target keeps showing its initial
    zeros, and one that did keeps showing the breakdown of its last
    reading before the target. *)
Theorem countdown_keeps_last_reading (target : Z) (later : list Z) :
  Forall (fun now => target - now <= 0) later ->
  Forall (fun tl => tl = initial) (shown target later initial)
  /\ (forall (before : list Z) (last : Z),
         0 < target - last ->
         Forall (fun tl => tl = breakdown (target - last))
           (shown target later (after target (before ++ [last]) initial))).
Proof.
  intros Hlater. split.
  - apply shown_frozen. exact Hlater.
  - intros before last Hlast.
    rewrite after_snoc, calculateTimeLeft_before by exact Hlast.
    apply shown_frozen. exact Hlater.
Qed.

(** The last tick falls exactly one second before the launch: the
    display stays at one second from then on. *)
Lemma countdown_keeps_last_reading_witness :
  Forall (fun now => launchDate - now <= 0) [launchDate; launchDate + 1000]
  /\ Forall (fun tl => tl = {| days := 0; hours := 0; minutes := 0; seconds := 1 |})
       (shown launchDate [launchDate; launchDate + 1000]
          (after launchDate ([launchDate - 2000] ++ [launchDate - 1000]) initial)).
Proof.
  assert (Hlater : Forall (fun now => launchDate - now <= 0)
                     [launchDate; launchDate + 1000]).
  { repeat constructor; discriminate. }
  split; [ exact Hlater | ].
  exact (proj2 (countdown_keeps_last_reading launchDate
                  [launchDate; launchDate + 1000] Hlater)
           [launchDate - 2000] (launchDate - 1000) eq_refl).
Defined.

(** X2: while the clock does not go back, the time the countdown shows
    never goes up from one tick before the target to the next tick. *)
Theorem countdown_never_counts_up (target now1 now2 : Z) (timeLeft : TimeLeft) :
  0 < target - now1 ->
  now1 <= now2 ->
  let first := calculateTimeLeft target now1 timeLeft in
  reconstruct (calculateTimeLeft target now2 first) <= reconstruct first.
Proof.
  intros Hpos Hle first. subst first.
  rewrite (calculateTimeLeft_before target now1) by exact Hpos.
  destruct (Z.lt_ge_cases 0 (target - now2)) as [Hpos2 | Hreached].
  - rewrite calculateTimeLeft_before by exact Hpos2.
    rewrite !breakdown_reconstruct.
    assert ((target - now2) / 1000 <= (target - now1) / 1000)
      by (apply Z.div_le_mono; lia).
    lia.
  - rewrite calculateTimeLeft_reached by exact Hreached. lia.
Qed.

Lemma countdown_never_counts_up_witness :
  0 < launchDate - (launchDate - 61000)
  /\ launchDate - 61000 <= launchDate - 59500
  /\ reconstruct
       (calculateTimeLeft launchDate (launchDate - 59500)
          (calculateTimeLeft launchDate (launchDate - 61000) initial))
     <= reconstruct (calculateTimeLeft launchDate (launchDate - 61000) initial).
Proof.
  split; [ reflexivity | split; [ discriminate | ] ].
  apply (countdown_never_counts_up launchDate (launchDate - 61000)
           (launchDate - 59500) initial).
  - reflexivity.
  - discriminate.
Defined.

(** X3: two ticks before the target show the same four fields exactly
    when the same whole number of seconds remains: the display changes
    when the remaining seconds change, and only then. *)
Theorem same_display_iff_same_second
    (target now1 now2 : Z) (tl1 tl2 : TimeLeft) :
  0 < target - now1 ->
  0 < target - now2 ->
  (calculateTimeLeft target now1 tl1 = calculateTimeLeft target now2 tl2
   <-> (target - now1) / 1000 = (target - now2) / 1000).
Proof.
  intros H1 H2.
  rewrite (calculateTimeLeft_before target now1) by exact H1.
  rewrite (calculateTimeLeft_before target now2) by exact H2.
  apply breakdown_eq_iff.
Qed.

Lemma same_display_iff_same_second_witness :
  0 < launchDate - (launchDate - 61999)
  /\ 0 < launchDate - (launchDate - 61000)
  /\ calculateTimeLeft launchDate (launchDate - 61999) initial
     = calculateTimeLeft launchDate (launchDate - 61000) initial.
Proof.
  split; [ reflexivity | split; [ reflexivity | ] ].
  apply (same_display_iff_same_second launchDate
           (launchDate - 61999) (launchDate - 61000) initial initial);
    reflexivity.
Defined.

End CountdownOverTime.

(* ===================================================================== *)
(** ** The countdown's cells *)
(* ===================================================================== *)

Section DisplayFacts.

Import Countdown Display.
Local Open Scope string_scope.

(** Within range: what [calculateTimeLeft] keeps true of the state. *)
Lemma calculateTimeLeft_in_range (target now : Z) (tl : TimeLeft) :
  (0 <= days tl /\ 0 <= hours tl < 24
   /\ 0 <= minutes tl < 60 /\ 0 <= seconds tl < 60) ->
  let tl' := calculateTimeLeft target now tl in
  0 <= days tl' /\ 0 <= hours tl' < 24
  /\ 0 <= minutes tl' < 60 /\ 0 <= seconds tl' < 60.
Proof.
  intros Htl tl'. subst tl'.
  destruct (Z.lt_ge_cases 0 (target - now)) as [Hpos | Hle].
  - rewrite calculateTimeLeft_before by exact Hpos.
    apply breakdown_bounds. lia.
  - rewrite calculateTimeLeft_reached by exact Hle. exact Htl.
Qed.

Lemma after_in_range (target : Z) (nows : list Z) (tl : TimeLeft) :
  (0 <= days tl /\ 0 <= hours tl < 24
   /\ 0 <= minutes tl < 60 /\ 0 <= seconds tl < 60) ->
  let tl' := after target nows tl in
  0 <= days tl' /\ 0 <= hours tl' < 24
  /\ 0 <= minutes tl' < 60 /\ 0 <= seconds tl' < 60.
Proof.
  revert tl. unfold after.
  induction nows as [ | now rest IH]; intros tl Htl; cbn [fold_left].
  - exact Htl.
  - apply IH. apply calculateTimeLeft_in_range. exact Htl.
Qed.

(** The decimal numeral of a non-negative integer: not empty, and read
    back as that integer. *)
Lemma numeral_of_nonneg (v : Z) :
  0 <= v ->
  exists d,
    Js.to_string (Js.Num v) = NilZero.string_of_uint d
    /\ d <> Decimal.Nil
    /\ Z.of_uint d = v.
Proof.
  intros Hv. destruct v as [ | p | p]; [ | | lia ].
  - exists Decimal.zero. repeat split. discriminate.
  - exists (Pos.to_uint p). split; [ reflexivity | split ].
    + apply DecimalPos.Unsigned.to_uint_nonnil.
    + unfold Z.of_uint. rewrite DecimalPos.Unsigned.of_to. reflexivity.
Qed.

Lemma numeral_not_empty (d : Decimal.uint) :
  d <> Decimal.Nil -> NilZero.string_of_uint d <> "".
Proof.
  intros Hd. destruct d; try congruence; cbn; discriminate.
Qed.

(** Padding to two characters with zeros: nothing, or one zero in
    front. *)
Lemma padStart_two_zero (s : string) :
  s <> "" ->
  (padStart s 2 "0" = s /\ (2 <= String.length s)%nat)
  \/ (padStart s 2 "0" = String "0"%char s /\ String.length s = 1%nat).
Proof.
  intros Hs. destruct s as [ | c1 [ | c2 rest]].
  - congruence.
  - right. split; reflexivity.
  - left. split; [ reflexivity | cbn; lia ].
Qed.

Lemma read_decimal_leading_zero (s : string) :
  s <> "" -> read_decimal (String "0"%char s) = read_decimal s.
Proof.
  intros Hs. unfold read_decimal.
  destruct s as [ | c rest]; [ congruence | ].
  unfold NilZero.uint_of_string.
  change (NilEmpty.uint_of_string (String "0"%char (String c rest)))
    with (uint_of_char "0"%char (NilEmpty.uint_of_string (String c rest))).
  destruct (NilEmpty.uint_of_string (String c rest)) as [d | ]; reflexivity.
Qed.

Lemma cell_text_reads_back (v : Z) :
  0 <= v ->
  read_decimal (cell_text v) = Some v
  /\ (2 <= String.length (cell_text v))%nat.
Proof.
  intros Hv. destruct (numeral_of_nonneg v Hv) as (d & Hs & Hd & Hval).
  pose proof (numeral_not_empty d Hd) as Hne.
  assert (Hread : read_decimal (NilZero.string_of_uint d) = Some v).
  { unfold read_decimal. rewrite NilZero.usu by exact Hd. cbn. rewrite Hval.
    reflexivity. }
  unfold cell_text. rewrite Hs.
  destruct (padStart_two_zero _ Hne) as [[Hpad Hlen] | [Hpad Hlen]]; rewrite Hpad.
  - split; [ exact Hread | exact Hlen ].
  - split.
    + rewrite read_decimal_leading_zero by exact Hne. exact Hread.
    + cbn. rewrite Hlen. lia.
Qed.

Lemma cell_text_two_wide (v : Z) :
  0 <= v < 60 -> String.length (cell_text v) = 2%nat.
Proof.
  intros Hv.
  assert (Hall : forallb
                   (fun n => Nat.eqb (String.length (cell_text (Z.of_nat n))) 2)
                   (seq 0 60) = true) by (vm_compute; reflexivity).
  rewrite forallb_forall in Hall.
  specialize (Hall (Z.to_nat v)).
  rewrite Z2Nat.id in Hall by lia.
  apply Nat.eqb_eq. apply Hall. apply in_seq. lia.
Qed.

(** X4: whatever ticks the countdown has gone through, its four cells
    are, in order, days, hours, minutes and seconds; each text is at
    least two characters wide and reads back, as a decimal numeral, as
    the field's value (a day count of three digits or more is shown in
    full), and the hours, minutes and seconds are exactly two
    characters wide. *)
Theorem countdown_cells_read_back (target : Z) (nows : list Z) :
  let tl := after target nows initial in
  exists d h m s,
    cells tl = [("days", d); ("hours", h); ("minutes", m); ("seconds", s)]
    /\ read_decimal d = Some (days tl)
    /\ read_decimal h = Some (hours tl)
    /\ read_decimal m = Some (minutes tl)
    /\ read_decimal s = Some (seconds tl)
    /\ (2 <= String.length d)%nat
    /\ String.length h = 2%nat
    /\ String.length m = 2%nat
    /\ String.length s = 2%nat.
Proof.
  intros tl.
  assert (Hrange : 0 <= days tl /\ 0 <= hours tl < 24
                   /\ 0 <= minutes tl < 60 /\ 0 <= seconds tl < 60).
  { apply (after_in_range target nows initial). cbn. lia. }
  destruct Hrange as (Hd & Hh & Hm & Hs).
  exists (cell_text (days tl)), (cell_text (hours tl)),
         (cell_text (minutes tl)), (cell_text (seconds tl)).
  split; [ reflexivity | ].
  split; [ apply cell_text_reads_back; lia | ].
  split; [ apply cell_text_reads_back; lia | ].
  split; [ apply cell_text_reads_back; lia | ].
  split; [ apply cell_text_reads_back; lia | ].
  split; [ apply cell_text_reads_back; lia | ].
  split; [ apply cell_text_two_wide; lia | ].
  split; apply cell_text_two_wide; lia.
Qed.

(** 123 days, 4 hours, 5 minutes and 6 seconds before the launch. *)
Example cells_of_long_countdown :
  cells (after launchDate [launchDate - 10641906000] initial)
  = [("days", "123"); ("hours", "04"); ("minutes", "05"); ("seconds", "06")].
Proof. vm_compute. reflexivity. Qed.

End DisplayFacts.

(* ===================================================================== *)
(** ** The countdown's interval over the component's life *)
(* ===================================================================== *)

Section EffectFacts.

Import Countdown Effect.

(** While mounted, the one live interval is the one the pending cleanup
    will clear; once unmounted there is none. *)
Lemma step_keeps_one_interval (c : Instance) (e : event) :
  (if mounted c
   then exists launch timer,
          intervals c = [(timer, launch)] /\ cleanup c = Some timer
   else intervals c = [] /\ cleanup c = None) ->
  (if mounted (step c e)
   then exists launch timer,
          intervals (step c e) = [(timer, launch)]
          /\ cleanup (step c e) = Some timer
   else intervals (step c e) = [] /\ cleanup (step c e) = None).
Proof.
  intros Hc. destruct e as [launch now | launch now | timer now | ]; cbn [step].
  - destruct (mounted c) eqn:Hm.
    + rewrite Hm. exact Hc.
    + cbn. exists launch, (next_timer c).
      destruct Hc as [Hi _]. rewrite Hi. split; reflexivity.
  - destruct (mounted c) eqn:Hm.
    + destruct Hc as (l & t & Hi & Hcl).
      unfold run_cleanup. rewrite Hcl.
      cbn [run_effect mounted intervals cleanup next_timer timeLeft].
      rewrite Hm, Hi. cbn [clearInterval filter fst].
      rewrite Nat.eqb_refl. cbn [negb].
      exists launch, (next_timer c). split; reflexivity.
    + rewrite Hm. exact Hc.
  - destruct (find (fun i => Nat.eqb (fst i) timer) (intervals c)) as [[t l] | ];
      cbn [mounted intervals cleanup]; exact Hc.
  - destruct (mounted c) eqn:Hm.
    + destruct Hc as (l & t & Hi & Hcl).
      unfold run_cleanup. rewrite Hcl. cbn [mounted intervals cleanup].
      rewrite Hi. cbn [clearInterval filter fst].
      rewrite Nat.eqb_refl. split; reflexivity.
    + rewrite Hm. exact Hc.
Qed.

Lemma steps_keep_one_interval (events : list event) (c : Instance) :
  (if mounted c
   then exists launch timer,
          intervals c = [(timer, launch)] /\ cleanup c = Some timer
   else intervals c = [] /\ cleanup c = None) ->
  (if mounted (steps c events)
   then exists launch timer,
          intervals (steps c events) = [(timer, launch)]
          /\ cleanup (steps c events) = Some timer
   else intervals (steps c events) = [] /\ cleanup (steps c events) = None).
Proof.
  revert c. unfold steps.
  induction events as [ | e later IH]; intros c Hc; cbn [fold_left].
  - exact Hc.
  - apply IH. apply step_keeps_one_interval. exact Hc.
Qed.

Lemma step_timeLeft_non_negative (c : Instance) (e : event) :
  non_negative (timeLeft c) -> non_negative (timeLeft (step c e)).
Proof.
  intros Hc. destruct e as [launch now | launch now | timer now | ]; cbn [step].
  - destruct (mounted c); [ exact Hc | ].
    cbn. apply calculateTimeLeft_non_negative. exact initial_non_negative.
  - destruct (mounted c); [ | exact Hc ].
    cbn [run_effect timeLeft]. apply calculateTimeLeft_non_negative.
    unfold run_cleanup. destruct (cleanup c); exact Hc.
  - destruct (find (fun i => Nat.eqb (fst i) timer) (intervals c)) as [[t l] | ];
      [ | exact Hc ].
    cbn [timeLeft]. apply calculateTimeLeft_non_negative. exact Hc.
  - destruct (mounted c); [ | exact Hc ].
    cbn [timeLeft]. unfold run_cleanup. destruct (cleanup c); exact Hc.
Qed.

(** X5: through any sequence of mounts, parent re-renders (each of
    which restarts the effect), interval firings and unmounts, the
    countdown holds exactly one live interval while it is mounted and
    none once it is unmounted, so that a firing after the unmount
    changes nothing; and its state never has a negative field. *)
Theorem countdown_holds_one_interval (events : list event) :
  let c := steps unmounted events in
  (mounted c = true -> List.length (intervals c) = 1%nat)
  /\ (mounted c = false ->
      intervals c = []
      /\ forall timer now, step c (Fire timer now) = c)
  /\ non_negative (timeLeft c).
Proof.
  intros c.
  assert (Hone : if mounted c
                 then exists launch timer,
                        intervals c = [(timer, launch)] /\ cleanup c = Some timer
                 else intervals c = [] /\ cleanup c = None).
  { apply steps_keep_one_interval. cbn. split; reflexivity. }
  split; [ | split ].
  - intros Hm. rewrite Hm in Hone. destruct Hone as (l & t & Hi & _).
    rewrite Hi. reflexivity.
  - intros Hm. rewrite Hm in Hone. destruct Hone as [Hi _].
    split; [ exact Hi | ].
    intros timer now. cbn [step]. rewrite Hi. reflexivity.
  - subst c. unfold steps.
    assert (Hgen : forall evs d, non_negative (timeLeft d) ->
                                 non_negative (timeLeft (fold_left step evs d))).
    { induction evs as [ | e later IH]; intros d Hd; cbn [fold_left].
      - exact Hd.
      - apply IH. apply step_timeLeft_non_negative. exact Hd. }
    apply Hgen. exact initial_non_negative.
Qed.

(** Mounted, re-rendered twice by the parent, then unmounted: three
    intervals were set, none is left. *)
Example intervals_after_unmount :
  let c := steps unmounted
             [ Mount launchDate (launchDate - 5000);
               Rerender launchDate (launchDate - 4500);
               Fire 1 (launchDate - 4000);
               Rerender launchDate (launchDate - 3900);
               Unmount; Fire 2 (launchDate - 3000) ] in
  intervals c = [] /\ next_timer c = 3%nat
  /\ seconds (timeLeft c) = 3.
Proof. cbv zeta. repeat split. Qed.

End EffectFacts.

(* ===================================================================== *)
(** ** More on the API client and the handler's error path *)
(* ===================================================================== *)

Section ClientFacts.

Import Async Waitlist.
Local Open Scope string_scope.

(** X6: whatever the request is rejected with, [addToWaitlist] throws an
    [Error] instance, and the error toast shows that error's message:
    the handler's other text, "Please try again later.", kept for a
    thrown value that is not an [Error], is never the one chosen. *)
Theorem error_toast_shows_thrown_message
    (API_URL : option string) (data : WaitlistData)
    (st : PageState) (e : thrown) (st' : PageState) :
  exists err,
    rejection API_URL data e = Threw err
    /\ instanceof_Error err = true
    /\ performed (finished API_URL st (Rejected e) st')
       = [ ToastError "Failed to join waitlist" (message err);
           SetIsSubmitting false ].
Proof.
  destruct (addToWaitlist_catch_throws e) as (err & Hthrow & Hinst).
  exists err. split; [ | split ].
  - apply rejection_with. exact Hthrow.
  - exact Hinst.
  - rewrite (finished_rejected_with API_URL st e err st' Hthrow).
    cbn [performed]. rewrite Hinst. reflexivity.
Qed.

(** X7: when the server's error response has [null] (or no) body,
    reading [.message] off it raises: [addToWaitlist] throws the
    engine's [TypeError], not an [Error] with one of its own texts;
    the handler catches it all the same and shows its message. *)
Theorem null_body_raises_type_error
    (API_URL : option string) (data : WaitlistData) (st st' : PageState)
    (axios_message : string) (status : Z) (body : Js.value) :
  body = Js.Null \/ body = Js.Undefined ->
  let e := AxiosError axios_message
             (Some {| Axios.data := body; Axios.status := status |}) in
  rejection API_URL data e = Threw (TypeError (cannot_read_message body))
  /\ filter is_toast (performed (finished API_URL st (Rejected e) st'))
     = [ToastError "Failed to join waitlist" (cannot_read_message body)]
  /\ rest (finished API_URL st (Rejected e) st') = Ret tt.
Proof.
  intros Hbody e.
  assert (Hthrow : addToWaitlist_catch e
                   = Throw (TypeError (cannot_read_message body))).
  { subst e. destruct Hbody as [-> | ->]; reflexivity. }
  split; [ apply rejection_with; exact Hthrow | ].
  rewrite (finished_rejected_with API_URL st e _ st' Hthrow).
  split; reflexivity.
Qed.

Lemma null_body_raises_type_error_witness :
  (Js.Null = Js.Null \/ Js.Null = Js.Undefined)
  /\ rejection None
       {| data_email := "jane@example.com"; data_name := "Jane Doe";
          data_restaurantName := None |}
       (AxiosError "Request failed with status code 500"
          (Some {| Axios.data := Js.Null; Axios.status := 500 |}))
     = Threw (TypeError "Cannot read properties of null (reading 'message')").
Proof.
  split; [ left; reflexivity | ].
  exact (proj1 (null_body_raises_type_error None
                  {| data_email := "jane@example.com"; data_name := "Jane Doe";
                     data_restaurantName := None |}
                  initialState initialState
                  "Request failed with status code 500" 500 Js.Null
                  (or_introl eq_refl))).
Defined.

(** X8: when the server's error response has a body that is not an
    object (the text of an HTML error page, an empty text, a number, a
    boolean, an array), there is no [message] to show and the error
    carries "Adding to waitlist failed". *)
Theorem unstructured_body_gets_fallback
    (API_URL : option string) (data : WaitlistData)
    (axios_message : string) (status : Z) (body : Js.value) :
  match body with
  | Js.Str _ | Js.Num _ | Js.Bool _ | Js.Arr _ => True
  | Js.Obj _ | Js.Null | Js.Undefined => False
  end ->
  rejection API_URL data
    (AxiosError axios_message
       (Some {| Axios.data := body; Axios.status := status |}))
  = Threw (Error "Adding to waitlist failed").
Proof.
  intros Hbody. apply rejection_with.
  destruct body; try contradiction; reflexivity.
Qed.

Lemma unstructured_body_gets_fallback_witness :
  match Js.Str "<html><body>502 Bad Gateway</body></html>" with
  | Js.Str _ | Js.Num _ | Js.Bool _ | Js.Arr _ => True
  | Js.Obj _ | Js.Null | Js.Undefined => False
  end
  /\ rejection None
       {| data_email := "jane@example.com"; data_name := "Jane Doe";
          data_restaurantName := None |}
       (AxiosError "Request failed with status code 502"
          (Some {| Axios.data := Js.Str "<html><body>502 Bad Gateway</body></html>";
                   Axios.status := 502 |}))
     = Threw (Error "Adding to waitlist failed").
Proof.
  split; [ exact I | ].
  apply (unstructured_body_gets_fallback None
           {| data_email := "jane@example.com"; data_name := "Jane Doe";
              data_restaurantName := None |}
           "Request failed with status code 502" 502
           (Js.Str "<html><body>502 Bad Gateway</body></html>")).
  exact I.
Defined.

(** X9: a rejection that [axios.isAxiosError] does not accept, or that
    carries no response (an axios error without one, a plain [Error],
    a thrown value that is no object or has no [isAxiosError: true]),
    gets the connectivity text, and nothing of what was thrown reaches
    the user. *)
Theorem no_response_gets_connectivity_text
    (API_URL : option string) (data : WaitlistData)
    (st : PageState) (e : thrown) (st' : PageState) :
  isAxiosError e = false \/ response_of e = None ->
  rejection API_URL data e
  = Threw (Error "Adding to waitlist failed. Please check your network or try again later.")
  /\ filter is_toast (performed (finished API_URL st (Rejected e) st'))
     = [ToastError "Failed to join waitlist"
          "Adding to waitlist failed. Please check your network or try again later."].
Proof.
  intros He.
  assert (Hthrow : addToWaitlist_catch e
                   = Throw (Error "Adding to waitlist failed. Please check your network or try again later.")).
  { unfold addToWaitlist_catch.
    destruct He as [Hax | Hresp]; [ rewrite Hax | rewrite Hresp ].
    - reflexivity.
    - destruct (isAxiosError e); reflexivity. }
  split; [ apply rejection_with; exact Hthrow | ].
  rewrite (finished_rejected_with API_URL st e _ st' Hthrow). reflexivity.
Qed.

Lemma no_response_gets_connectivity_text_witness :
  (isAxiosError (Error "socket hang up") = false
   \/ response_of (Error "socket hang up") = None)
  /\ filter is_toast
       (performed (finished None initialState
                     (Rejected (Error "socket hang up")) initialState))
     = [ToastError "Failed to join waitlist"
          "Adding to waitlist failed. Please check your network or try again later."].
Proof.
  split; [ left; reflexivity | ].
  exact (proj2 (no_response_gets_connectivity_text None
                  {| data_email := ""; data_name := "";
                     data_restaurantName := None |}
                  initialState (Error "socket hang up") initialState
                  (or_introl eq_refl))).
Defined.

(** [axios.isAxiosError] goes by the [isAxiosError] member: a thrown
    object that has it, with a response, is read like an axios error. *)
Example marked_object_is_read_as_axios_error :
  rejection None
    {| data_email := "jane@example.com"; data_name := "Jane Doe";
       data_restaurantName := None |}
    (Thrown
       (Js.Obj [ ("isAxiosError", Js.Bool true);
                 ("response",
                   Js.Obj [("data", Js.Obj [("message", Js.Str "from the server")])]) ]))
  = Threw (Error "from the server").
Proof. reflexivity. Qed.

(** X14: when the server's error response has an object for body whose
    [message] member is absent or falsy (the empty string, [null], 0,
    [false]), the [||] default applies and the error carries "Adding to
    waitlist failed", which is what the error toast shows. *)
Theorem falsy_message_gets_fallback
    (API_URL : option string) (data : WaitlistData) (st st' : PageState)
    (axios_message : string) (status : Z) (fields : list (string * Js.value)) :
  Js.truthy (Js.field "message" fields) = false ->
  let e := AxiosError axios_message
             (Some {| Axios.data := Js.Obj fields; Axios.status := status |}) in
  rejection API_URL data e = Threw (Error "Adding to waitlist failed")
  /\ filter is_toast (performed (finished API_URL st (Rejected e) st'))
     = [ToastError "Failed to join waitlist" "Adding to waitlist failed"].
Proof.
  intros Hfalsy e.
  pose proof (addToWaitlist_catch_falsy axios_message status fields Hfalsy)
    as Hthrow.
  split; [ apply rejection_with; exact Hthrow | ].
  subst e. rewrite (finished_rejected_with API_URL st _ _ st' Hthrow).
  reflexivity.
Qed.

(** The server answers 400 with [{error: "bad request"}]: no [message]. *)
Lemma falsy_message_gets_fallback_witness :
  Js.truthy (Js.field "message" [("error", Js.Str "bad request")]) = false
  /\ filter is_toast
       (performed
          (finished None initialState
             (Rejected
                (AxiosError "Request failed with status code 400"
                   (Some {| Axios.data := Js.Obj [("error", Js.Str "bad request")];
                            Axios.status := 400 |})))
             initialState))
     = [ToastError "Failed to join waitlist" "Adding to waitlist failed"].
Proof.
  split; [ reflexivity | ].
  exact (proj2 (falsy_message_gets_fallback None
                  {| data_email := ""; data_name := "";
                     data_restaurantName := None |}
                  initialState initialState
                  "Request failed with status code 400" 400
                  [("error", Js.Str "bad request")] eq_refl)).
Defined.

(** X10: [addToWaitlist] on its own, whatever it is given and however
    the network answers, posts exactly once and does nothing to the
    page; it returns the response body as it came when the request is
    fulfilled, and throws when it is rejected; and when the caller
    leaves [restaurantName] out, the JSON body has the members [email]
    and [name] only. *)
Theorem addToWaitlist_posts_once_and_returns_body
    (API_URL : option string) (data : WaitlistData)
    (net : Axios.Request -> settled) :
  let request := Axios.post (api API_URL) "/auth/wait-list" (request_body data) in
  fst (exec net (addToWaitlist API_URL data)) = [Requested request]
  /\ (forall response, net request = Fulfilled response ->
        snd (exec net (addToWaitlist API_URL data))
        = Returned (Axios.data response))
  /\ (forall e, net request = Rejected e ->
        exists err, snd (exec net (addToWaitlist API_URL data)) = Threw err)
  /\ Js.json_members (Axios.req_data request)
     = ([ ("email", Js.Str (data_email data));
          ("name", Js.Str (data_name data)) ]
        ++ match data_restaurantName data with
           | Some r => [("restaurantName", Js.Str r)]
           | None => []
           end)%list.
Proof.
  intros request.
  assert (Hexec : exec net (addToWaitlist API_URL data)
                  = match net request with
                    | Fulfilled response =>
                        ([Requested request], Returned (Axios.data response))
                    | Rejected e =>
                        ([Requested request],
                         snd (exec net (addToWaitlist_catch e)))
                    end).
  { unfold addToWaitlist. cbn -[addToWaitlist_catch].
    fold request. destruct (net request) as [response | e].
    - reflexivity.
    - cbn -[addToWaitlist_catch].
      destruct (addToWaitlist_catch_throws e) as (err & Hthrow & _).
      rewrite Hthrow. reflexivity. }
  rewrite Hexec.
  split; [ destruct (net request); reflexivity | ].
  split; [ intros response Hnet; rewrite Hnet; reflexivity | ].
  split.
  - intros e Hnet. rewrite Hnet. cbn [snd].
    destruct (addToWaitlist_catch_throws e) as (err & Hthrow & _).
    exists err. rewrite Hthrow. reflexivity.
  - subst request. cbn. destruct (data_restaurantName data); reflexivity.
Qed.

End ClientFacts.

(* ===================================================================== *)
(** ** More on the page: its accounts over any run *)
(* ===================================================================== *)

Section LedgerFacts.

Import Async Waitlist Ledger.
Local Open Scope string_scope.

Variable API_URL : option string.
Variable valid_email : string -> bool.

Local Abbreviation step := (step API_URL valid_email).
Local Abbreviation steps := (steps API_URL valid_email).
Local Abbreviation busy := (busy API_URL).

(** A submission the browser lets through, from an idle page. *)
Lemma press_from_idle (pg : Page) :
  idle pg ->
  submittable valid_email (render (ui pg)) = true ->
  step pg PressSubmit
  = {| ui := apply (SetIsSubmitting true) (ui pg);
       inflight := [rest (started API_URL (ui pg))];
       sent := sent pg ++ [waitlist_request API_URL (ui pg)];
       toasts := toasts pg ++ [];
       uncaught := uncaught pg ++ [] |}.
Proof.
  intros [_ Hnone] Hsub. cbn [Waitlist.step]. rewrite Hsub.
  unfold absorb.
  change (run (onSubmit API_URL (ui pg)) (ui pg)) with (started API_URL (ui pg)).
  destruct (started_eq API_URL (ui pg)) as [k Hk].
  rewrite Hk, Hnone. reflexivity.
Qed.

(** The outstanding request settles: one toast, nothing outstanding. *)
Lemma settle_from_busy (pg : Page) (st0 : PageState) (s : settled) :
  inflight pg = [rest (started API_URL st0)] ->
  exists toast,
    step pg (Settles 0 s)
    = {| ui := state (finished API_URL st0 s (ui pg));
         inflight := [];
         sent := sent pg ++ [];
         toasts := toasts pg ++ [toast];
         uncaught := uncaught pg ++ [] |}.
Proof.
  intros Hone. cbn [Waitlist.step]. rewrite Hone. cbn [nth_error remove_nth].
  unfold absorb.
  change (run (settle (rest (started API_URL st0)) s) (ui pg))
    with (finished API_URL st0 s (ui pg)).
  destruct s as [response | e].
  - rewrite finished_fulfilled. eexists. reflexivity.
  - destruct (finished_rejected API_URL st0 e (ui pg)) as [d Hd].
    rewrite Hd. eexists. reflexivity.
Qed.

Lemma submittable_not_subscribed (st : PageState) :
  submittable valid_email (render st) = true -> subscribed st = false.
Proof.
  unfold submittable, render.
  destruct (subscribed st); cbn; [ discriminate | reflexivity ].
Qed.

Lemma typing_balanced (a : action) (pg : Page) :
  (forall b, a <> SetSubscribed b) ->
  balanced pg -> balanced (typing a pg).
Proof.
  intros Ha (Hun & Hlen & Hsub). unfold typing.
  destruct (render (ui pg)); [ | repeat split; assumption ].
  unfold Ledger.balanced. cbn [ui inflight sent toasts uncaught].
  repeat split; try assumption.
  intros Hs. apply Hsub. destruct a; try exact Hs.
  exfalso. exact (Ha b eq_refl).
Qed.

Lemma step_balanced (pg : Page) (i : input) :
  idle pg \/ busy pg ->
  balanced pg -> balanced (step pg i).
Proof.
  intros Hinv Hbal. destruct i as [s | s | s | | n s].
  - apply typing_balanced; [ discriminate | exact Hbal ].
  - apply typing_balanced; [ discriminate | exact Hbal ].
  - apply typing_balanced; [ discriminate | exact Hbal ].
  - destruct (submittable valid_email (render (ui pg))) eqn:Hsub.
    + pose proof (submittable_not_submitting valid_email _ Hsub) as Hflag.
      destruct Hinv as [Hidle | [Hbusy _]]; [ | congruence ].
      rewrite (press_from_idle pg Hidle Hsub).
      pose proof (submittable_not_subscribed _ Hsub) as Hnot.
      destruct Hbal as (Hun & Hlen & _).
      destruct Hidle as [_ Hnone].
      unfold Ledger.balanced. cbn [ui inflight sent toasts uncaught apply subscribed].
      rewrite !app_nil_r, Hun, length_app, Hlen, Hnone. cbn [List.length].
      repeat split.
      * lia.
      * intros Hs. congruence.
    + cbn [Waitlist.step]. rewrite Hsub. exact Hbal.
  - destruct Hinv as [[_ Hnone] | [_ [st0 Hone]]].
    + cbn [Waitlist.step]. rewrite Hnone. destruct n; exact Hbal.
    + destruct n as [ | n].
      * destruct (settle_from_busy pg st0 s Hone) as [toast Hstep].
        rewrite Hstep. destruct Hbal as (Hun & Hlen & _).
        unfold Ledger.balanced. cbn [ui inflight sent toasts uncaught].
        rewrite !app_nil_r, Hun, length_app, Hlen, Hone. cbn [List.length].
        repeat split; try reflexivity; try assumption. lia.
      * cbn [Waitlist.step]. rewrite Hone. destruct n; exact Hbal.
Qed.

Lemma steps_balanced (inputs : list input) (pg : Page) :
  idle pg \/ busy pg ->
  balanced pg -> balanced (steps pg inputs).
Proof.
  revert pg. unfold Waitlist.steps.
  induction inputs as [ | i later IH]; intros pg Hinv Hbal; cbn [fold_left].
  - exact Hbal.
  - apply IH.
    + apply step_preserves. exact Hinv.
    + apply step_balanced; assumption.
Qed.

Lemma initialPage_balanced : balanced initialPage.
Proof.
  unfold Ledger.balanced. cbn. repeat split; try discriminate.
Qed.

(** With the confirmation on screen and nothing outstanding, no event
    changes the page. *)
Lemma step_when_subscribed (pg : Page) (i : input) :
  subscribed (ui pg) = true -> inflight pg = [] -> step pg i = pg.
Proof.
  intros Hsub Hnone.
  assert (Hview : render (ui pg) = Confirmation).
  { unfold render. rewrite Hsub. reflexivity. }
  destruct i as [s | s | s | | n s]; cbn [Waitlist.step].
  - unfold typing. rewrite Hview. reflexivity.
  - unfold typing. rewrite Hview. reflexivity.
  - unfold typing. rewrite Hview. reflexivity.
  - rewrite Hview. reflexivity.
  - rewrite Hnone. destruct n; reflexivity.
Qed.

Lemma steps_when_subscribed (inputs : list input) (pg : Page) :
  subscribed (ui pg) = true -> inflight pg = [] -> steps pg inputs = pg.
Proof.
  intros Hsub Hnone. unfold Waitlist.steps.
  induction inputs as [ | i later IH]; cbn [fold_left].
  - reflexivity.
  - rewrite (step_when_subscribed pg i Hsub Hnone). exact IH.
Qed.

End LedgerFacts.

Section PageContract.

Import Async Waitlist Ledger.
Local Open Scope string_scope.

(** X11: once a submission has succeeded the page is done with the
    waitlist: whatever the user or the network does next, nothing more
    is sent or shown and no state changes; there is at most one
    successful signup per page load. *)
Theorem page_is_inert_once_subscribed
    (API_URL : option string) (valid_email : string -> bool)
    (inputs later : list input) :
  subscribed (ui (steps API_URL valid_email initialPage inputs)) = true ->
  steps API_URL valid_email initialPage (inputs ++ later)
  = steps API_URL valid_email initialPage inputs.
Proof.
  intros Hsub. unfold steps. rewrite fold_left_app.
  fold (steps API_URL valid_email initialPage inputs).
  apply steps_when_subscribed; [ exact Hsub | ].
  assert (Hbal : balanced (steps API_URL valid_email initialPage inputs)).
  { apply steps_balanced;
      [ left; exact initialPage_idle | exact initialPage_balanced ]. }
  destruct Hbal as (_ & _ & Hnone). apply Hnone. exact Hsub.
Qed.

Lemma page_is_inert_once_subscribed_witness :
  let inputs :=
    [ TypeName "Jane Doe"; TypeEmail "jane@example.com"; PressSubmit;
      Settles 0 (Fulfilled {| Axios.data := Js.Obj []; Axios.status := 201 |}) ] in
  let later :=
    [ TypeName "John Doe"; TypeEmail "john@example.com"; PressSubmit ] in
  subscribed (ui (steps None (fun _ => true) initialPage inputs)) = true
  /\ steps None (fun _ => true) initialPage (inputs ++ later)
     = steps None (fun _ => true) initialPage inputs.
Proof.
  cbv zeta. split; [ reflexivity | ].
  apply (page_is_inert_once_subscribed None (fun _ => true)
           [ TypeName "Jane Doe"; TypeEmail "jane@example.com"; PressSubmit;
             Settles 0 (Fulfilled {| Axios.data := Js.Obj []; Axios.status := 201 |}) ]
           [ TypeName "John Doe"; TypeEmail "john@example.com"; PressSubmit ]).
  reflexivity.
Defined.

(** X12: along any sequence of user and network events, every request
    the page has sent is either still outstanding or has been answered
    by exactly one toast, and no invocation of the handler has ended
    with an error thrown out of it. *)
Theorem every_request_gets_one_toast
    (API_URL : option string) (valid_email : string -> bool)
    (inputs : list input) :
  let pg := steps API_URL valid_email initialPage inputs in
  List.length (sent pg)
  = (List.length (toasts pg) + List.length (inflight pg))%nat
  /\ uncaught pg = [].
Proof.
  intros pg.
  assert (Hbal : balanced pg).
  { apply steps_balanced;
      [ left; exact initialPage_idle | exact initialPage_balanced ]. }
  destruct Hbal as (Hun & Hlen & _). split; assumption.
Qed.

(** X13: the submit handler checks nothing of what it posts: reached
    in any state, with the name or the e-mail empty as well, it goes
    straight from raising the flag to the request and posts the three
    fields as they are, once, however the request settles.  Keeping an
    unfilled form from being submitted is left to the inputs. *)
Theorem handler_posts_fields_unchecked
    (API_URL : option string) (st : PageState) (net : Axios.Request -> settled) :
  performed (started API_URL st) = [PreventDefault; SetIsSubmitting true]
  /\ awaiting (rest (started API_URL st)) = Some (waitlist_request API_URL st)
  /\ requests_in (fst (exec net (onSubmit API_URL st)))
     = [waitlist_request API_URL st]
  /\ Js.json_members (Axios.req_data (waitlist_request API_URL st))
     = [ ("email", Js.Str (email st));
         ("name", Js.Str (name st));
         ("restaurantName", Js.Str (restaurantName st)) ].
Proof.
  split; [ reflexivity | split; [ reflexivity | split; [ | reflexivity ] ] ].
  rewrite exec_onSubmit. cbn. rewrite requests_in_performed. reflexivity.
Qed.

(** Nothing filled in: the handler, if reached, posts three empty
    texts. *)
Example empty_form_is_posted_as_it_is :
  requests_in
    (fst (exec (fun _ => Rejected (AxiosError "Network Error" None))
            (onSubmit None initialState)))
  = [ {| Axios.req_method := "POST";
         Axios.req_baseURL := None;
         Axios.req_url := "/auth/wait-list";
         Axios.req_headers := [("Content-Type", "application/json")];
         Axios.req_data :=
           Js.Obj [ ("email", Js.Str ""); ("name", Js.Str "");
                    ("restaurantName", Js.Str "") ] |} ].
Proof. reflexivity. Qed.

End PageContract.
